(** * VidMuse: the windowed generation controller

    A shallow embedding of [audiocraft/models/vidmuse.py]: the session
    object [VidMuse], its parameter setter, the attribute builder and the
    chunked token generation loop of [_generate_tokens], followed by the
    properties of the controller.

    Conventions of the embedding.
    - Python numbers ([duration], [extend_stride], [max_duration]) are exact
      rationals [Q]; [int(x)] is truncation toward zero.  Binary64 rounding of
      the products is not modelled; on the dyadic inputs of the examples the
      two coincide.
    - A token tensor [B, K, T] and a video tensor [B, C, T, H, W] are only
      ever sliced along their time axis, so each is the list of its time
      steps; slicing follows Python (negative indices count from the end,
      out-of-range bounds are clamped).
    - [self], the [attributes] list object handed in by the caller and the
      log of decoder calls form the mutable world threaded through a small
      state-and-exception monad.  A raised exception keeps the mutations done
      before it.
    - The decoder [lm.generate], the codec and [convert_audio] are external:
      they are parameters of the development. *)

From Stdlib Require Import String ZArith QArith Qabs Qround Qminmax List Lia Bool.
Import ListNotations.
Local Open Scope Z_scope.

(** ** Python arithmetic *)

Module Py.

(** [int(x)] on a number: truncation toward zero. *)
Definition int (x : Q) : Z := Z.quot (Qnum x) (Z.pos (Qden x)).

(** Normalisation of a slice bound against a length [n]. *)
Definition bound (i : Z) (n : nat) : nat :=
  if i <? 0 then Z.to_nat (Z.max (i + Z.of_nat n) 0)
  else Nat.min (Z.to_nat i) n.

(** [l[i:]] *)
Definition slice_from {A} (i : Z) (l : list A) : list A :=
  skipn (bound i (length l)) l.

(** [l[:i]] *)
Definition slice_to {A} (i : Z) (l : list A) : list A :=
  firstn (bound i (length l)) l.

(** [len(l)] as a Python int. *)
Definition len {A} (l : list A) : Z := Z.of_nat (length l).

End Py.

(** The last [n] elements of a list (all of it when it is shorter). *)
Definition lastn {A} (n : nat) (l : list A) : list A :=
  skipn (length l - n) l.


(** Ceiling of [a / b] for a positive divisor. *)
Definition ceil_div (a b : Z) : Z := (a + b - 1) / b.

(** Comparisons of Python numbers, as booleans. *)
Definition Qltb (x y : Q) : bool := negb (Qle_bool y x).

(** ** Data model *)

(** One time step of a token tensor [B, K, T] (its codebook entries, kept
    opaque) and the tensor itself along the time axis. *)
Definition tokens := list Z.

(** One time step of a video feature tensor [B, C, T, H, W]. *)
Definition frame := Z.

(** A waveform tensor: its rank, the size of its first axis and its payload. *)
Record waveform := {
  wdim : nat;
  wlen : nat;
  wdata : list Z
}.

Record WavCondition := {
  wav : waveform;
  wav_length : list Z;
  wav_sample_rate : list Z;
  wav_path : list (option string)
}.

(** Modelled from the spec: [ConditioningAttributes] is declared in
    [modules/conditioners.py], outside the sources at hand; the spec gives it
    as a per-sample record with a text field and a secondary-modality field.
    It is a record, not a tensor: it has no time axis to slice. *)
Record ConditioningAttributes := {
  text_description : option string;
  wav_self_wav : option WavCondition
}.

(** An element of the [attributes] list: a video feature tensor (as built by
    [generate]) or a conditioning record (as built by
    [_prepare_tokens_and_attributes]). *)
Inductive attribute :=
| Video (frames : list frame)
| Cond (c : ConditioningAttributes).

Record gen_params := {
  use_sampling : bool;
  temp : Q;
  top_k : Z;
  top_p : Q;
  cfg_coef : Q;
  two_step_cfg : bool
}.

(** The fields of [self] the controller reads or writes.  [fps] is absent
    ([None]) until the extension path of [_generate_tokens] stores it. *)
Record session := {
  max_duration : Q;
  extend_stride : Q;
  duration : Q;
  generation_params : gen_params;
  fps : option Z
}.

(** The properties [frame_rate], [sample_rate] and [audio_channels] return
    constants. *)
Definition frame_rate : Z := 50.
Definition sample_rate : Z := 32000.
Definition audio_channels : Z := 1.

(** The exceptions of the module, one constructor per raising site. *)
Inductive error :=
| StrideTooLarge       (* assert: Cannot stride by more than max generation duration. *)
| PromptTooLong        (* assert: Prompt is longer than audio to generate *)
| AttributesNotAPair   (* assert len(attributes)==2 *)
| NotATensor           (* five-axis slice or .shape of a conditioning record *)
| EmptyCat             (* torch.cat of an empty list *)
| MaxDurationMissing   (* ValueError: You must provide max_duration ... *)
| PromptDimension      (* ValueError: prompt should have 3 dimensions *)
| DescriptionsMismatch (* assert: Prompt and nb. descriptions doesn't match *)
| ScaleNotNone         (* assert scale is None *)
| MelodyUnsupported    (* RuntimeError: This model doesn't support melody conditioning. *)
| MelodyCountMismatch  (* assert: number of melody wavs must match ... *)
| DescriptionsNotAPair (* assert len(descriptions_list)==2 *)
| External (msg : string). (* raised inside the decoder *)

Inductive result (A : Type) :=
| Ok (a : A)
| Raise (e : error)
| OutOfFuel.
Arguments Ok {A} a.
Arguments Raise {A} e.
Arguments OutOfFuel {A}.

(** One invocation of [lm.generate], as the decoder sees it. *)
Record decoder_call := {
  call_prompt : option tokens;
  call_attributes : list attribute;
  call_max_gen_len : Z;
  call_params : gen_params;
  call_callback : bool
}.

(** The mutable world: [self], the list object bound to [attributes] in the
    running [_generate_tokens], and the decoder calls made so far. *)
Record world := {
  self : session;
  attributes : list attribute;
  calls : list decoder_call
}.

(** The external collaborators, as interfaces. *)
Class LMModel := {
  lm_generate : option tokens -> list attribute -> Z -> gen_params -> tokens + string
}.

Class CompressionModel := {
  encode : waveform -> tokens * option Z;
  decode : tokens -> waveform
}.

(** ** State and exception monad *)

Definition M (A : Type) : Type := world -> result A * world.

Definition ret {A} (a : A) : M A := fun w => (Ok a, w).

Definition bind {A B} (m : M A) (k : A -> M B) : M B :=
  fun w =>
    match m w with
    | (Ok a, w') => k a w'
    | (Raise e, w') => (Raise e, w')
    | (OutOfFuel, w') => (OutOfFuel, w')
    end.

Definition raise {A} (e : error) : M A := fun w => (Raise e, w).

Definition out_of_fuel {A} : M A := fun w => (OutOfFuel, w).

Definition assert (b : bool) (e : error) : M unit :=
  if b then ret tt else raise e.

Notation "x <- m ;; k" := (bind m (fun x => k))
  (at level 61, m at next level, right associativity).
Notation "m ;; k" := (bind m (fun _ => k))
  (at level 61, right associativity).

Definition get_self : M session := fun w => (Ok (self w), w).

Definition set_self (s : session) : M unit :=
  fun w => (Ok tt, {| self := s; attributes := attributes w; calls := calls w |}).

Definition get_attributes : M (list attribute) := fun w => (Ok (attributes w), w).

Definition set_attributes (a : list attribute) : M unit :=
  fun w => (Ok tt, {| self := self w; attributes := a; calls := calls w |}).

Definition set_max_duration (m : Q) (s : session) : session :=
  {| max_duration := m; extend_stride := extend_stride s; duration := duration s;
     generation_params := generation_params s; fps := fps s |}.

Definition set_fps (f : Z) (s : session) : session :=
  {| max_duration := max_duration s; extend_stride := extend_stride s;
     duration := duration s; generation_params := generation_params s;
     fps := Some f |}.

(** ** The session: [VidMuse] *)

(** [set_generation_params]: the stride assertion, then the three stores. *)
Definition set_generation_params (use_sampling' : bool) (top_k' : Z)
    (top_p' temperature duration' cfg_coef' : Q) (two_step_cfg' : bool)
    (extend_stride' : Q) : M unit :=
  s <- get_self ;;
  assert (Qltb extend_stride' (max_duration s)) StrideTooLarge ;;
  set_self {| max_duration := max_duration s;
              extend_stride := extend_stride';
              duration := duration';
              generation_params :=
                {| use_sampling := use_sampling'; temp := temperature;
                   top_k := top_k'; top_p := top_p'; cfg_coef := cfg_coef';
                   two_step_cfg := two_step_cfg' |};
              fps := fps s |}.

(** [__init__], as far as the generation fields go: [max_duration] is the
    argument or else the configured segment duration, and the parameters are
    set with every default but [duration=15].  The fields [extend_stride],
    [duration] and [generation_params] do not exist before that call; the
    record holds zeros there. *)
Definition __init__ (max_duration' cfg_segment_duration : option Q) : result session :=
  match (match max_duration' with
         | Some m => Some m
         | None => cfg_segment_duration
         end) with
  | None => Raise MaxDurationMissing
  | Some m =>
      let blank := {| use_sampling := false; temp := 0; top_k := 0; top_p := 0;
                      cfg_coef := 0; two_step_cfg := false |} in
      let w := {| self := {| max_duration := m; extend_stride := 0; duration := 0;
                             generation_params := blank; fps := None |};
                  attributes := []; calls := [] |} in
      match set_generation_params true 250 0 1 15 3 false 29.5 w with
      | (Ok _, w') => Ok (self w')
      | (Raise e, _) => Raise e
      | (OutOfFuel, _) => OutOfFuel
      end
  end.

(** ** The controller *)

(** The generation state local to one call (the variables of the loop). *)
Record gen_state := {
  prompt_tokens : option tokens;
  prompt_length : Z;
  all_tokens : list tokens;
  current_gen_offset : Z
}.

(** [a[:, :, :n, :, :]] on an element of [attributes]. *)
Definition time_slice_to (n : Z) (a : attribute) : M attribute :=
  match a with
  | Video v => ret (Video (Py.slice_to n v))
  | Cond _ => raise NotATensor
  end.

(** [torch.cat(chunks, dim=-1)]. *)
Definition torch_cat (chunks : list tokens) : M tokens :=
  match chunks with
  | [] => raise EmptyCat
  | _ => ret (concat chunks)
  end.

Section Controller.

Context {lm : LMModel}.

(** [self.lm.generate(prompt, attrs, callback=..., max_gen_len=...,
    **self.generation_params)]: the call is logged, its outcome returned. *)
Definition lm_call (prompt : option tokens) (attrs : list attribute)
    (max_gen_len : Z) (progress : bool) : M tokens :=
  fun w =>
    let p := generation_params (self w) in
    let w' := {| self := self w; attributes := attributes w;
                 calls := calls w ++
                   [{| call_prompt := prompt; call_attributes := attrs;
                       call_max_gen_len := max_gen_len; call_params := p;
                       call_callback := progress |}] |} in
    match lm_generate prompt attrs max_gen_len p with
    | inl g => (Ok g, w')
    | inr msg => (Raise (External msg), w')
    end.

(** The window advance at the end of one iteration (lines 405-408), on the
    time axis of the local group: [v.shape[2]] is [len v], the two slices are
    [v[:, :, -md*vfps:, :, :]] and [v[:, :, stride_video_frames:, :, :]]. *)
Definition advance_window (md vfps stride_video_frames : Z) (v : list frame)
    : list frame :=
  if Py.len v - stride_video_frames <? md * vfps
  then Py.slice_from (- md * vfps) v
  else Py.slice_from stride_video_frames v.

(** [chunk_duration] at offset [o] (lines 388-389). *)
Definition chunk_duration_of (md : Z) (s : session) (o : Z) : Q :=
  let time_offset := (inject_Z o / inject_Z frame_rate)%Q in
  Qmin (duration s - time_offset) (inject_Z md).

(** The body of the [while] loop (lines 388-409).  [md] and [vfps] are
    [self.max_duration] and [self.fps]: within the call they are the integers
    30 and 2 stored at lines 338 and 384.  The pattern [[a0; a1]] is the
    assertion [len(attributes)==2]; [attributes[0]] is a tensor by the time
    the window is advanced, the slice before the decoder call having raised
    otherwise. *)
Definition loop_body (md vfps : Z) (progress : bool)
    (stride_tokens stride_video_frames : Z) (st : gen_state) : M gen_state :=
  s <- get_self ;;
  let chunk_duration := chunk_duration_of md s (current_gen_offset st) in
  let max_gen_len := Py.int (chunk_duration * inject_Z frame_rate) in
  attrs <- get_attributes ;;
  match attrs with
  | [a0; a1] =>
      local <- time_slice_to (Py.int (chunk_duration * inject_Z vfps)) a0 ;;
      gen_tokens <- lm_call (prompt_tokens st) [local; a1] max_gen_len progress ;;
      let all_tokens' :=
        match prompt_tokens st with
        | None => all_tokens st ++ [gen_tokens]
        | Some p => all_tokens st ++ [Py.slice_from (Py.len p) gen_tokens]
        end in
      let prompt' := Py.slice_from stride_tokens gen_tokens in
      match a0 with
      | Video v =>
          set_attributes [Video (advance_window md vfps stride_video_frames v); a1] ;;
          ret {| prompt_tokens := Some prompt';
                 prompt_length := Py.len prompt';
                 all_tokens := all_tokens';
                 current_gen_offset := current_gen_offset st + stride_tokens |}
      | Cond _ => raise NotATensor
      end
  | _ => raise AttributesNotAPair
  end.

(** The [while] loop; one unit of fuel per iteration. *)
Fixpoint extend_loop (md vfps : Z) (progress : bool)
    (total_gen_len stride_tokens stride_video_frames : Z)
    (fuel : nat) (st : gen_state) : M gen_state :=
  if current_gen_offset st + prompt_length st <? total_gen_len then
    match fuel with
    | O => out_of_fuel
    | S fuel' =>
        st' <- loop_body md vfps progress stride_tokens stride_video_frames st ;;
        extend_loop md vfps progress total_gen_len stride_tokens
          stride_video_frames fuel' st'
    end
  else ret st.

(** The state on entry of the loop (lines 375-380). *)
Definition initial_state (prompt : option tokens) : gen_state :=
  match prompt with
  | None => {| prompt_tokens := None; prompt_length := 0;
               all_tokens := []; current_gen_offset := 0 |}
  | Some p => {| prompt_tokens := Some p; prompt_length := Py.len p;
                 all_tokens := [p]; current_gen_offset := 0 |}
  end.

(** Lines 340, 341, 382 and 385. *)
Definition total_gen_len_of (s : session) : Z :=
  Py.int (duration s * inject_Z frame_rate).

Definition max_prompt_len_of (s : session) : Z :=
  Py.int (Qmin (duration s) (max_duration s) * inject_Z frame_rate).

Definition stride_tokens_of (s : session) : Z :=
  Py.int (inject_Z frame_rate * extend_stride s).

Definition stride_video_frames_of (vfps : Z) (s : session) : Z :=
  Py.int (inject_Z vfps * extend_stride s).

(** [_generate_tokens].  The [attrs] list object becomes the one in the
    world; progress printing is left out, the flag only travels to the
    decoder call.  [extend_stride] is a number, so the assertion that it is
    not [None] has nothing to check. *)
Definition _generate_tokens (attrs : list attribute)
    (prompt : option tokens) (progress : bool) (fuel : nat) : M tokens :=
  set_attributes attrs ;;
  s0 <- get_self ;;
  set_self (set_max_duration 30 s0) ;;
  s <- get_self ;;
  let total_gen_len := total_gen_len_of s in
  let max_prompt_len := max_prompt_len_of s in
  match prompt with
  | Some p => assert (Py.len p <=? max_prompt_len) PromptTooLong
  | None => ret tt
  end ;;
  if Qle_bool (duration s) (max_duration s) then
    a <- get_attributes ;;
    lm_call prompt a total_gen_len progress
  else
    assert (Qltb (extend_stride s) (max_duration s)) StrideTooLarge ;;
    let st0 := initial_state prompt in
    let stride_tokens := stride_tokens_of s in
    set_self (set_fps 2 s) ;;
    let stride_video_frames := stride_video_frames_of 2 s in
    st <- extend_loop 30 2 progress total_gen_len stride_tokens
            stride_video_frames fuel st0 ;;
    torch_cat (all_tokens st).

End Controller.

(** ** The attribute builder and the entry points *)

Section Facade.

Context {lm : LMModel} {codec : CompressionModel}.

(** [convert_audio] of [data/audio_utils.py]. *)
Variable convert_audio : waveform -> Z -> Z -> Z -> waveform.

(** Whether the decoder declares a ['self_wav'] conditioner. *)
Variable has_self_wav : bool.

(** The placeholder condition of lines 290-294 and the condition built from a
    melody (lines 310-315). *)
Definition null_wav : WavCondition :=
  {| wav := {| wdim := 3; wlen := 1; wdata := [0] |};
     wav_length := [0];
     wav_sample_rate := [sample_rate];
     wav_path := [None] |}.

Definition melody_wav (m : waveform) : WavCondition :=
  {| wav := {| wdim := S (wdim m); wlen := 1; wdata := wdata m |};
     wav_length := [Py.len (wdata m)];
     wav_sample_rate := [sample_rate];
     wav_path := [None] |}.

(** [_prepare_tokens_and_attributes]: one record per description, its
    ['self_wav'] slot filled from the melodies or with the placeholder, then
    the prompt encoded. *)
Definition _prepare_tokens_and_attributes (descriptions : list (option string))
    (prompt : option waveform) (melody_wavs : option (list (option waveform)))
    : M (list attribute * option tokens) :=
  let attributes0 :=
    map (fun d => {| text_description := d; wav_self_wav := None |}) descriptions in
  attrs <-
    match melody_wavs with
    | None =>
        ret (map (fun a => {| text_description := text_description a;
                              wav_self_wav := Some null_wav |}) attributes0)
    | Some ms =>
        assert has_self_wav MelodyUnsupported ;;
        assert (length ms =? length descriptions)%nat MelodyCountMismatch ;;
        ret (map (fun am =>
                    {| text_description := text_description (fst am);
                       wav_self_wav :=
                         Some (match snd am with
                               | None => null_wav
                               | Some m => melody_wav m
                               end) |})
                 (combine attributes0 ms))
    end ;;
  match prompt with
  | Some p =>
      assert (length descriptions =? wlen p)%nat DescriptionsMismatch ;;
      let (prompt_tokens, scale) := encode p in
      match scale with
      | None => ret (map Cond attrs, Some prompt_tokens)
      | Some _ => raise ScaleNotNone
      end
  | None => ret (map Cond attrs, None)
  end.

(** [generate_audio]; a token tensor has three axes, which is all the
    assertion asks. *)
Definition generate_audio (gen_tokens : tokens) : M waveform :=
  ret (decode gen_tokens).

(** [generate_unconditional]; the result is the pair of the audio and the
    tokens, of which [return_tokens] keeps both or the audio alone. *)
Definition generate_unconditional (num_samples : nat) (progress : bool)
    (fuel : nat) : M (waveform * tokens) :=
  let descriptions := repeat (@None string) num_samples in
  ap <- _prepare_tokens_and_attributes descriptions None None ;;
  tokens <- _generate_tokens (fst ap) (snd ap) progress fuel ;;
  audio <- generate_audio tokens ;;
  ret (audio, tokens).


(** [generate_continuation]; [_prepare_tokens_and_attributes] returns prompt
    tokens whenever it is given a prompt, as line 263 asserts. *)
Definition generate_continuation (prompt : waveform) (prompt_sample_rate : Z)
    (descriptions : option (list (option string))) (progress : bool)
    (fuel : nat) : M (waveform * tokens) :=
  let prompt1 :=
    if (wdim prompt =? 2)%nat
    then {| wdim := 3; wlen := 1; wdata := wdata prompt |}
    else prompt in
  assert (wdim prompt1 =? 3)%nat PromptDimension ;;
  let prompt2 := convert_audio prompt1 prompt_sample_rate sample_rate audio_channels in
  let descriptions1 :=
    match descriptions with
    | None => repeat (@None string) (wlen prompt2)
    | Some d => d
    end in
  ap <- _prepare_tokens_and_attributes descriptions1 (Some prompt2) None ;;
  tokens <- _generate_tokens (fst ap) (snd ap) progress fuel ;;
  audio <- generate_audio tokens ;;
  ret (audio, tokens).

End Facade.

(** ** Collaborators and sessions used by the examples *)

(** A decoder that returns the prompt followed by [max_gen_len] fresh steps:
    its output has [max_gen_len] plus prompt-length steps. *)
Definition plus_decoder : LMModel :=
  {| lm_generate := fun p _ n _ =>
       inl (match p with Some t => t | None => [] end ++ repeat 7 (Z.to_nat n)) |}.

(** A codec whose encoding keeps one step per sample and has no scale. *)
Definition plain_codec : CompressionModel :=
  {| encode := fun p => (wdata p, None);
     decode := fun t => {| wdim := 3; wlen := 1; wdata := t |} |}.

Definition default_params : gen_params :=
  {| use_sampling := true; temp := 1; top_k := 250; top_p := 0;
     cfg_coef := 3; two_step_cfg := false |}.

(** A session as [get_pretrained] builds it ([max_duration=30]) after
    [set_generation_params(duration=d, extend_stride=es)]. *)
Definition session_of (d es : Q) : session :=
  {| max_duration := 30; extend_stride := es; duration := d;
     generation_params := default_params; fps := None |}.

Definition world_of (s : session) : world :=
  {| self := s; attributes := []; calls := [] |}.

(** A video pair whose local group has [n] frames. *)
Definition video_pair (n : nat) : list attribute :=
  [Video (repeat 1 n); Video [5]].

(** The length of the prompt handed to a decoder call. *)
Definition plen (p : option tokens) : Z :=
  match p with
  | Some t => Py.len t
  | None => 0
  end.


(** The other reading of the decoder contract: [max_gen_len] steps in all,
    the prompt among them, for a prompt no longer than that. *)
Definition meets_total_contract (lm : LMModel) : Prop :=
  forall p a n g, plen p <= n ->
    exists t, lm_generate p a n g = inl t /\ Py.len t = n.

(** A decoder of that kind: the prompt, filled up to [max_gen_len] steps. *)
Definition total_decoder : LMModel :=
  {| lm_generate := fun p _ n _ =>
       inl (firstn (Z.to_nat n)
              (match p with Some t => t | None => [] end ++ repeat 7 (Z.to_nat n))) |}.


(** The world once [_generate_tokens] has bound [attrs] and stored
    [max_duration = 30], and once the extension path has stored [fps = 2]. *)
Definition entered (attrs : list attribute) (w : world) : world :=
  {| self := set_max_duration 30 (self w); attributes := attrs; calls := calls w |}.

Definition extending (attrs : list attribute) (w : world) : world :=
  {| self := set_fps 2 (set_max_duration 30 (self w));
     attributes := attrs; calls := calls w |}.


(** A three-axis waveform of [n] samples, and a resampler that leaves it as
    it is. *)
Definition wave_of (n : nat) : waveform :=
  {| wdim := 3; wlen := 1; wdata := repeat 2 n |}.

Definition keep_audio (p : waveform) (from to channels : Z) : waveform := p.

(** The prompt assertion of lines 353-355 passes: a prompt, when there is one,
    has at most [max_prompt_len] steps ([max_duration] being 30 by then). *)
Definition prompt_fits (prompt : option tokens) (s : session) : Prop :=
  match prompt with
  | Some p => Py.len p <= max_prompt_len_of (set_max_duration 30 s)
  | None => True
  end.

(** The errors the loop body can raise. *)
Definition loop_error (e : error) : Prop :=
  match e with
  | AttributesNotAPair | NotATensor | External _ => True
  | _ => False
  end.

(** ** Melody conditioning and pretrained sessions *)

(** [MelodyType]: one tensor, or a list of optional tensors. *)
Inductive melody_input :=
| MelodyTensor (t : waveform)
| MelodyList (l : list (option waveform)).

(** The two shape failures of [generate_with_chroma], raised before the
    attribute builder runs. *)
Inductive melody_shape_error :=
| MelodyShape   (* ValueError: Melody wavs should have a shape [B, C, T]. *)
| MelodyDims.   (* assert: One melody in the list has the wrong number of dims. *)

Section Chroma.

Context {lm : LMModel} {codec : CompressionModel}.

Variable convert_audio : waveform -> Z -> Z -> Z -> waveform.
Variable has_self_wav : bool.

(** [list(t)] on a tensor: its slices along the first axis. *)
Variable unbind : waveform -> list waveform.

(** Lines 219-228: the melodies as a list of optional two-axis tensors. *)
Definition melody_list (melody_wavs : melody_input)
    : list (option waveform) + melody_shape_error :=
  match melody_wavs with
  | MelodyTensor t =>
      let t1 :=
        if (wdim t =? 2)%nat
        then {| wdim := 3; wlen := 1; wdata := wdata t |}
        else t in
      if (wdim t1 =? 3)%nat then inl (map Some (unbind t1)) else inr MelodyShape
  | MelodyList l =>
      if forallb (fun m => match m with
                           | Some x => (wdim x =? 2)%nat
                           | None => true
                           end) l
      then inl l
      else inr MelodyDims
  end.

(** [generate_with_chroma]; the builder returns no prompt tokens when it is
    given no prompt, as line 236 asserts.  The result is the pair of the
    audio and the tokens, as for [generate_unconditional]. *)
Definition generate_with_chroma (descriptions : list (option string))
    (melody_wavs : melody_input) (melody_sample_rate : Z) (progress : bool)
    (fuel : nat) (w : world)
    : (result (waveform * tokens) + melody_shape_error) * world :=
  match melody_list melody_wavs with
  | inr e => (inr e, w)
  | inl ms =>
      let ms' :=
        map (option_map (fun wav =>
               convert_audio wav melody_sample_rate sample_rate audio_channels)) ms in
      let r :=
        (ap <- _prepare_tokens_and_attributes has_self_wav descriptions None (Some ms') ;;
         tokens <- _generate_tokens (fst ap) (snd ap) progress fuel ;;
         audio <- generate_audio tokens ;;
         ret (audio, tokens)) w in
      (inl (fst r), snd r)
  end.

End Chroma.

(** [_HF_MODEL_CHECKPOINTS_MAP] and the lookup of lines 105-109. *)
Definition _HF_MODEL_CHECKPOINTS_MAP : list (string * string) :=
  [("small", "facebook/musicgen-small");
   ("medium", "facebook/musicgen-medium");
   ("large", "facebook/musicgen-large");
   ("melody", "facebook/musicgen-melody")]%string.

Fixpoint lookup (k : string) (m : list (string * string)) : option string :=
  match m with
  | [] => None
  | (k', v) :: m' => if String.eqb k k' then Some v else lookup k m'
  end.

Definition checkpoint_name (name : string) : string :=
  match lookup name _HF_MODEL_CHECKPOINTS_MAP with
  | Some full => full
  | None => name
  end.

(** What [get_pretrained] returns: the name and device it settled on, the two
    models and the generation fields of the new object. *)
Record VidMuse := {
  vm_name : string;
  vm_device : string;
  vm_compression_model : CompressionModel;
  vm_lm : LMModel;
  vm_session : session
}.

Inductive loaded (A : Type) :=
| Loaded (a : A)
| LoadError (msg : string)   (* raised by a loader *)
| InitFailed (r : result session). (* [__init__] did not return a session *)
Arguments Loaded {A} a.
Arguments LoadError {A} msg.
Arguments InitFailed {A} r.

Section Pretrained.

(** [torch.cuda.device_count()] and the builders and loaders of
    [builders.py] and [loaders.py]. *)
Variable cuda_device_count : nat.
Variable get_debug_compression_model : string -> CompressionModel.
Variable get_debug_lm_model : string -> LMModel.
Variable load_lm_model : string -> string -> LMModel + string.
Variable load_compression_model : string -> string -> CompressionModel + string.

(** [VidMuse(name, compression_model, lm, max_duration=30)]: with
    [max_duration] given, [__init__] does not consult the configuration. *)
Definition construct (name device : string) (cm : CompressionModel) (l : LMModel)
    : loaded VidMuse :=
  match __init__ (Some 30%Q) None with
  | Ok s => Loaded {| vm_name := name; vm_device := device;
                      vm_compression_model := cm; vm_lm := l; vm_session := s |}
  | r => InitFailed r
  end.

(** [get_pretrained]; the two flags set on a ['self_wav'] conditioner live in
    the decoder and are not part of the model. *)
Definition get_pretrained (name : string) (device : option string) : loaded VidMuse :=
  let device1 :=
    match device with
    | Some d => d
    | None => if (cuda_device_count =? 0)%nat then "cpu"%string else "cuda"%string
    end in
  if String.eqb name "debug" then
    construct name device1 (get_debug_compression_model device1)
      (get_debug_lm_model device1)
  else
    let name1 := checkpoint_name name in
    match load_lm_model name1 device1 with
    | inr msg => LoadError msg
    | inl l =>
        match load_compression_model name1 device1 with
        | inr msg => LoadError msg
        | inl cm => construct name1 device1 cm l
        end
    end.

End Pretrained.

(** ** Notions used by the further properties *)

(** [l] is a suffix, and a contiguous segment, of [v]. *)
Definition suffix_of {A} (l v : list A) : Prop := exists pre, v = pre ++ l.

Definition segment_of {A} (l v : list A) : Prop :=
  exists pre post, v = pre ++ l ++ post.

(** The decoder call of an iteration at state [st] on the local window [v]
    and the global group [g] (lines 394-396). *)
Definition loop_call (md vfps : Z) (progress : bool) (st : gen_state) (s : session)
    (v : list frame) (g : attribute) : decoder_call :=
  {| call_prompt := prompt_tokens st;
     call_attributes :=
       [Video (Py.slice_to
          (Py.int (chunk_duration_of md s (current_gen_offset st) * inject_Z vfps)) v); g];
     call_max_gen_len :=
       Py.int (chunk_duration_of md s (current_gen_offset st) * inject_Z frame_rate);
     call_params := generation_params s;
     call_callback := progress |}.

(** A decoder that returns on every call. *)
Definition always_returns (lm : LMModel) : Prop :=
  forall p a n g, exists t, lm_generate p a n g = inl t.

(** The calls a run adds to the log all satisfy [P]. *)
Definition new_calls (P : decoder_call -> Prop) (w w' : world) : Prop :=
  exists new, calls w' = calls w ++ new /\ Forall P new.

(** What every decoder call of a run carries, whatever the attributes: the
    sampling parameters of the session, the progress flag, and a request for
    no more than [30 * frame_rate] steps. *)
Definition call_plain (s : session) (progress : bool) (c : decoder_call) : Prop :=
  call_params c = generation_params s /\
  call_callback c = progress /\
  call_max_gen_len c <= 30 * frame_rate.

(** What a decoder call of the extension loop carries when the attributes are
    the pair of the local window [v] and the global group [g]. *)
Definition call_windowed (v : list frame) (g : attribute) (svf : Z)
    (c : decoder_call) : Prop :=
  1 <= call_max_gen_len c <= 30 * frame_rate /\
  exists l,
    call_attributes c = [Video l; g] /\
    segment_of l v /\
    (length l <= 60)%nat /\
    (call_max_gen_len c = 30 * frame_rate -> (60 <= length v)%nat -> 0 <= svf ->
     length l = 60%nat).

(** What the extension loop keeps of the world on that pair: the session,
    the global group, and a local window that is a suffix of [v] and, from
    60 frames on with a stride that is not negative, holds at least 60. *)
Definition window_world (s : session) (v : list frame) (g : attribute) (svf : Z)
    (w : world) : Prop :=
  self w = s /\
  exists v',
    attributes w = [Video v'; g] /\
    suffix_of v' v /\
    ((60 <= length v)%nat -> 0 <= svf -> (60 <= length v')%nat).

(** An attribute that is the record of the description [d], its ['self_wav']
    slot filled. *)
Definition described (a : attribute) (d : option string) : Prop :=
  exists c, a = Cond c /\ text_description c = d /\ wav_self_wav c <> None.

(** ** Arithmetic of [int] *)

Lemma int_floor (x : Q) : 0 <= Qnum x -> Py.int x = Qfloor x.
Proof.
  destruct x as [a b]; simpl; intros Ha. unfold Py.int; simpl.
  apply Z.quot_div_nonneg; lia.
Qed.

Lemma int_ceiling (x : Q) : Qnum x <= 0 -> Py.int x = Qceiling x.
Proof.
  destruct x as [a b]; simpl; intros Ha. unfold Py.int, Qceiling; simpl.
  rewrite <- (Z.opp_involutive a) at 1.
  rewrite Z.quot_opp_l by lia. f_equal.
  apply Z.quot_div_nonneg; lia.
Qed.

Lemma int_comp (x y : Q) : (x == y)%Q -> Py.int x = Py.int y.
Proof.
  intros E. destruct (Z_le_gt_dec 0 (Qnum x)) as [H|H].
  - assert (0 <= Qnum y) by (unfold Qeq in E; nia).
    rewrite !int_floor by assumption. now apply Qfloor_comp.
  - assert (Qnum y <= 0) by (unfold Qeq in E; nia).
    rewrite !int_ceiling by lia. now apply Qceiling_comp.
Qed.

Lemma int_inject (k : Z) : Py.int (inject_Z k) = k.
Proof. unfold Py.int; simpl. apply Z.quot_1_r. Qed.

Lemma int_of_integer (x : Q) (k : Z) : (x == inject_Z k)%Q -> Py.int x = k.
Proof. intros E. rewrite (int_comp _ _ E). apply int_inject. Qed.

Lemma Qnum_nonneg (x : Q) : (0 <= x)%Q -> 0 <= Qnum x.
Proof. unfold Qle; simpl. lia. Qed.

Lemma int_nonneg (x : Q) : (0 <= x)%Q -> 0 <= Py.int x.
Proof.
  intros H. rewrite int_floor by now apply Qnum_nonneg.
  change 0 with (Qfloor 0). now apply Qfloor_resp_le.
Qed.

(** [int] is monotone on the non-negative numbers. *)
Lemma int_mono (x y : Q) : (0 <= x)%Q -> (x <= y)%Q -> Py.int x <= Py.int y.
Proof.
  intros Hx Hxy.
  rewrite !int_floor.
  - now apply Qfloor_resp_le.
  - apply Qnum_nonneg. now apply Qle_trans with x.
  - now apply Qnum_nonneg.
Qed.

Lemma int_lt_of_lt (x : Q) (k : Z) : (0 <= x)%Q -> (x < inject_Z k)%Q -> Py.int x < k.
Proof.
  intros Hx Hk. rewrite int_floor by now apply Qnum_nonneg.
  apply Z.lt_nge. intros Hge.
  apply (Qlt_not_le _ _ Hk).
  apply Qle_trans with (inject_Z (Qfloor x)); [|apply Qfloor_le].
  rewrite <- Zle_Qle. exact Hge.
Qed.





Lemma len_nonneg {A} (l : list A) : 0 <= Py.len l.
Proof. unfold Py.len. lia. Qed.


Lemma slice_from_nonneg {A} (i : Z) (l : list A) :
  0 <= i -> Py.slice_from i l = skipn (Z.to_nat i) l.
Proof.
  intros Hi. unfold Py.slice_from, Py.bound.
  destruct (Z.ltb_spec i 0) as [?|_]; [lia|].
  destruct (Nat.le_gt_cases (Z.to_nat i) (length l)) as [H|H].
  - now rewrite Nat.min_l.
  - rewrite Nat.min_r by lia.
    rewrite !skipn_all2 by lia. reflexivity.
Qed.

Lemma slice_from_neg {A} (i : Z) (l : list A) :
  i < 0 -> Py.slice_from i l = lastn (Z.to_nat (- i)) l.
Proof.
  intros Hi. unfold Py.slice_from, Py.bound, lastn.
  destruct (Z.ltb_spec i 0) as [_|?]; [|lia].
  f_equal. lia.
Qed.

Lemma slice_from_len {A} (i : Z) (l : list A) :
  0 <= i -> Py.len (Py.slice_from i l) = Z.max 0 (Py.len l - i).
Proof.
  intros Hi. rewrite slice_from_nonneg by assumption.
  unfold Py.len. rewrite length_skipn. lia.
Qed.

Lemma slice_to_nonneg {A} (i : Z) (l : list A) :
  0 <= i -> Py.slice_to i l = firstn (Z.to_nat i) l.
Proof.
  intros Hi. unfold Py.slice_to, Py.bound.
  destruct (Z.ltb_spec i 0) as [?|_]; [lia|].
  destruct (Nat.le_gt_cases (Z.to_nat i) (length l)) as [H|H].
  - now rewrite Nat.min_l.
  - rewrite Nat.min_r by lia.
    rewrite !firstn_all2 by lia. reflexivity.
Qed.

Lemma lastn_length {A} (n : nat) (l : list A) :
  length (lastn n l) = Nat.min n (length l).
Proof. unfold lastn. rewrite length_skipn. lia. Qed.

Lemma lastn_suffix {A} (n : nat) (l : list A) :
  firstn (length l - n) l ++ lastn n l = l.
Proof. unfold lastn. apply firstn_skipn. Qed.


(** ** Running the loop *)

Section Runs.
Context {lm : LMModel}.

(** The call record of one loop iteration. *)
Lemma loop_body_run md vfps progress stt svf st w v g gen :
  attributes w = [Video v; g] ->
  lm_generate (prompt_tokens st)
    [Video (Py.slice_to
              (Py.int (chunk_duration_of md (self w) (current_gen_offset st) * inject_Z vfps)) v); g]
    (Py.int (chunk_duration_of md (self w) (current_gen_offset st) * inject_Z frame_rate))
    (generation_params (self w)) = inl gen ->
  loop_body md vfps progress stt svf st w =
  (Ok {| prompt_tokens := Some (Py.slice_from stt gen);
         prompt_length := Py.len (Py.slice_from stt gen);
         all_tokens := all_tokens st ++
           [match prompt_tokens st with
            | None => gen
            | Some p => Py.slice_from (Py.len p) gen
            end];
         current_gen_offset := current_gen_offset st + stt |},
   {| self := self w;
      attributes := [Video (advance_window md vfps svf v); g];
      calls := calls w ++
        [{| call_prompt := prompt_tokens st;
            call_attributes :=
              [Video (Py.slice_to
                 (Py.int (chunk_duration_of md (self w) (current_gen_offset st)
                          * inject_Z vfps)) v); g];
            call_max_gen_len :=
              Py.int (chunk_duration_of md (self w) (current_gen_offset st)
                      * inject_Z frame_rate);
            call_params := generation_params (self w);
            call_callback := progress |}] |}).
Proof.
  intros Ha Hg.
  unfold loop_body, bind, get_self, get_attributes.
  rewrite Ha. cbn [time_slice_to ret]. unfold lm_call. cbn [self attributes calls].
  rewrite Hg. cbn [set_attributes self attributes calls ret].
  destruct (prompt_tokens st); reflexivity.
Qed.

Lemma loop_body_cases md vfps progress stt svf st w :
  self (snd (loop_body md vfps progress stt svf st w)) = self w /\
  ((exists e, fst (loop_body md vfps progress stt svf st w) = Raise e /\
              loop_error e /\
              (length (calls (snd (loop_body md vfps progress stt svf st w)))
               <= S (length (calls w)))%nat) \/
   (exists st', fst (loop_body md vfps progress stt svf st w) = Ok st' /\
                current_gen_offset st' = current_gen_offset st + stt /\
                0 <= prompt_length st' /\
                length (calls (snd (loop_body md vfps progress stt svf st w)))
                = S (length (calls w)))).
Proof.
  destruct (attributes w) as [|a0 [|a1 [|a2 r]]] eqn:Ha;
    try (unfold loop_body, bind, get_self, get_attributes; rewrite Ha; cbn;
         split; [reflexivity|left; eexists; split; [reflexivity|split; [exact I|lia]]]).
  destruct a0 as [v|c].
  - destruct (lm_generate (prompt_tokens st)
      [Video (Py.slice_to
              (Py.int (chunk_duration_of md (self w) (current_gen_offset st) * inject_Z vfps)) v); a1]
      (Py.int (chunk_duration_of md (self w) (current_gen_offset st) * inject_Z frame_rate))
      (generation_params (self w))) as [gen|msg] eqn:Hg.
    + rewrite (loop_body_run _ _ _ _ _ _ _ _ _ _ Ha Hg). cbn.
      split; [reflexivity|right]. eexists.
      split; [reflexivity|]. split; [reflexivity|].
      split; [apply len_nonneg|]. rewrite length_app; simpl; lia.
    + unfold loop_body, bind, get_self, get_attributes. rewrite Ha.
      cbn [time_slice_to ret]. unfold lm_call. cbn [self attributes calls].
      rewrite Hg. cbn. split; [reflexivity|left].
      eexists. split; [reflexivity|]. split; [exact I|].
      rewrite length_app; simpl; lia.
  - unfold loop_body, bind, get_self, get_attributes; rewrite Ha; cbn.
    split; [reflexivity|left; eexists; split; [reflexivity|split; [exact I|lia]]].
Qed.


Lemma ceil_div_step (a b : Z) : 1 <= b -> ceil_div (a - b) b = ceil_div a b - 1.
Proof.
  intros Hb. unfold ceil_div.
  replace (a - b + b - 1) with (a + b - 1 + (-1) * b) by lia.
  rewrite Z.div_add by lia. lia.
Qed.

Lemma ceil_div_pos (a b : Z) : 1 <= b -> 1 <= a -> 1 <= ceil_div a b.
Proof.
  intros Hb Ha. unfold ceil_div.
  apply Z.div_le_lower_bound; lia.
Qed.

Lemma ceil_div_covers (a b : Z) : 1 <= b -> a <= ceil_div a b * b.
Proof.
  intros Hb. unfold ceil_div.
  pose proof (Z.div_mod (a + b - 1) b ltac:(lia)).
  pose proof (Z.mod_pos_bound (a + b - 1) b ltac:(lia)). nia.
Qed.

Lemma extend_loop_frame md vfps progress T stt svf fuel : forall st w,
  self (snd (extend_loop md vfps progress T stt svf fuel st w)) = self w /\
  (forall e, fst (extend_loop md vfps progress T stt svf fuel st w) = Raise e ->
             loop_error e).
Proof.
  induction fuel as [|fuel IH]; intros st w; cbn [extend_loop];
    destruct (current_gen_offset st + prompt_length st <? T);
    try (cbn; split; [reflexivity|discriminate]).
  unfold bind.
  destruct (loop_body_cases md vfps progress stt svf st w)
    as [Hs [(e & He & Hl & _)|(st' & Hst & _)]];
    destruct (loop_body md vfps progress stt svf st w) as [r w1];
    cbn [fst snd] in *; subst r.
  - split; [assumption|]. cbn. intros e' [= <-]. assumption.
  - destruct (IH st' w1) as [IH1 IH2]. split; [congruence|assumption].
Qed.

Lemma extend_loop_terminates md vfps progress T stt svf fuel : forall st w,
  1 <= stt ->
  0 <= prompt_length st ->
  T - current_gen_offset st <= Z.of_nat fuel * stt ->
  fst (extend_loop md vfps progress T stt svf fuel st w) <> OutOfFuel /\
  Z.of_nat (length (calls (snd (extend_loop md vfps progress T stt svf fuel st w))))
  <= Z.of_nat (length (calls w))
     + Z.max 0 (ceil_div (T - current_gen_offset st) stt).
Proof.
  induction fuel as [|fuel IH]; intros st w Hs Hp Hf; cbn [extend_loop];
    destruct (Z.ltb_spec (current_gen_offset st + prompt_length st) T) as [C|C];
    try (cbn; split; [discriminate|lia]); [exfalso; lia|].
  unfold bind.
  pose proof (ceil_div_pos (T - current_gen_offset st) stt Hs ltac:(lia)) as Hc.
  destruct (loop_body_cases md vfps progress stt svf st w)
    as [_ [(e & He & _ & Hn)|(st' & Hst & Ho & Hp' & Hn)]];
    destruct (loop_body md vfps progress stt svf st w) as [r w1];
    cbn [fst snd] in *; subst r.
  - cbn. split; [discriminate|lia].
  - destruct (IH st' w1 Hs Hp' ltac:(lia)) as [IH1 IH2].
    split; [assumption|].
    rewrite Ho in IH2.
    replace (T - (current_gen_offset st + stt))
      with (T - current_gen_offset st - stt) in IH2 by lia.
    rewrite ceil_div_step in IH2 by assumption. lia.
Qed.




End Runs.

(** ** Entering [_generate_tokens] *)

Lemma Qltb_true (x y : Q) : Qltb x y = true <-> (x < y)%Q.
Proof.
  unfold Qltb. rewrite Bool.negb_true_iff. split.
  - intros H. apply Qnot_le_lt. intros L.
    apply Qle_bool_iff in L. congruence.
  - intros H. destruct (Qle_bool y x) eqn:E; [|reflexivity].
    apply Qle_bool_iff in E. exfalso. now apply (Qlt_not_le _ _ H).
Qed.

Lemma Qltb_false (x y : Q) : Qltb x y = false <-> (y <= x)%Q.
Proof.
  unfold Qltb. rewrite Bool.negb_false_iff. apply Qle_bool_iff.
Qed.

Lemma Qle_bool_false (x y : Q) : Qle_bool x y = false <-> (y < x)%Q.
Proof.
  split.
  - intros H. apply Qnot_le_lt. intros L. apply Qle_bool_iff in L. congruence.
  - intros H. destruct (Qle_bool x y) eqn:E; [|reflexivity].
    apply Qle_bool_iff in E. exfalso. now apply (Qlt_not_le _ _ H).
Qed.

Section Entry.
Context {lm : LMModel}.

Ltac enter :=
  unfold _generate_tokens, bind, set_attributes, get_self, set_self;
  cbn [self attributes calls].

Lemma generate_tokens_too_long attrs p progress fuel w :
  max_prompt_len_of (set_max_duration 30 (self w)) < Py.len p ->
  _generate_tokens attrs (Some p) progress fuel w
  = (Raise PromptTooLong, entered attrs w).
Proof.
  intros H. enter. unfold assert.
  destruct (Z.leb_spec (Py.len p) (max_prompt_len_of (set_max_duration 30 (self w))));
    [lia|reflexivity].
Qed.

Lemma generate_tokens_single_shot attrs prompt progress fuel w :
  (duration (self w) <= 30)%Q ->
  prompt_fits prompt (self w) ->
  _generate_tokens attrs prompt progress fuel w
  = lm_call prompt attrs (total_gen_len_of (self w)) progress (entered attrs w).
Proof.
  intros Hd Hp. enter.
  assert (E : Qle_bool (duration (self w)) 30 = true) by now apply Qle_bool_iff.
  destruct prompt as [p|]; cbn [prompt_fits] in Hp; unfold assert, ret.
  - destruct (Z.leb_spec (Py.len p) (max_prompt_len_of (set_max_duration 30 (self w))));
      [|lia].
    cbn [max_duration duration set_max_duration]. rewrite E. reflexivity.
  - cbn [max_duration duration set_max_duration]. rewrite E. reflexivity.
Qed.

Lemma generate_tokens_bad_stride attrs prompt progress fuel w :
  (30 < duration (self w))%Q ->
  prompt_fits prompt (self w) ->
  (30 <= extend_stride (self w))%Q ->
  _generate_tokens attrs prompt progress fuel w
  = (Raise StrideTooLarge, entered attrs w).
Proof.
  intros Hd Hp Hs. enter.
  assert (E : Qle_bool (duration (self w)) 30 = false) by now apply Qle_bool_false.
  assert (F : Qltb (extend_stride (self w)) 30 = false) by now apply Qltb_false.
  destruct prompt as [p|]; cbn [prompt_fits] in Hp; unfold assert, ret.
  - destruct (Z.leb_spec (Py.len p) (max_prompt_len_of (set_max_duration 30 (self w))));
      [|lia].
    cbn [max_duration duration extend_stride set_max_duration]. rewrite E, F. reflexivity.
  - cbn [max_duration duration extend_stride set_max_duration]. rewrite E, F. reflexivity.
Qed.

Lemma generate_tokens_extension attrs prompt progress fuel w :
  (30 < duration (self w))%Q ->
  prompt_fits prompt (self w) ->
  (extend_stride (self w) < 30)%Q ->
  _generate_tokens attrs prompt progress fuel w
  = (st <- extend_loop 30 2 progress (total_gen_len_of (self w))
             (stride_tokens_of (self w)) (stride_video_frames_of 2 (self w))
             fuel (initial_state prompt) ;;
     torch_cat (all_tokens st)) (extending attrs w).
Proof.
  intros Hd Hp Hs. enter.
  assert (E : Qle_bool (duration (self w)) 30 = false) by now apply Qle_bool_false.
  assert (F : Qltb (extend_stride (self w)) 30 = true) by now apply Qltb_true.
  destruct prompt as [p|]; cbn [prompt_fits] in Hp; unfold assert, ret.
  - destruct (Z.leb_spec (Py.len p) (max_prompt_len_of (set_max_duration 30 (self w))));
      [|lia].
    cbn [max_duration duration extend_stride set_max_duration]. rewrite E, F. reflexivity.
  - cbn [max_duration duration extend_stride set_max_duration]. rewrite E, F. reflexivity.
Qed.

End Entry.

Section Calls.
Context {lm : LMModel}.

Lemma lm_call_run prompt attrs n progress w :
  lm_call prompt attrs n progress w =
  (match lm_generate prompt attrs n (generation_params (self w)) with
   | inl g => Ok g
   | inr msg => Raise (External msg)
   end,
   {| self := self w; attributes := attributes w;
      calls := calls w ++
        [{| call_prompt := prompt; call_attributes := attrs;
            call_max_gen_len := n; call_params := generation_params (self w);
            call_callback := progress |}] |}).
Proof.
  unfold lm_call.
  destruct (lm_generate prompt attrs n (generation_params (self w))); reflexivity.
Qed.

(** What a call of [_generate_tokens] leaves in [self], and that it never
    raises the prompt assertion once the prompt fits. *)
Lemma generate_tokens_outcome attrs prompt progress fuel w :
  (self (snd (_generate_tokens attrs prompt progress fuel w))
     = set_max_duration 30 (self w) \/
   ((30 < duration (self w))%Q /\
    self (snd (_generate_tokens attrs prompt progress fuel w))
     = set_fps 2 (set_max_duration 30 (self w)))) /\
  (prompt_fits prompt (self w) ->
   fst (_generate_tokens attrs prompt progress fuel w) <> Raise PromptTooLong).
Proof.
  assert (prompt_fits prompt (self w) \/
          exists p, prompt = Some p /\
                    max_prompt_len_of (set_max_duration 30 (self w)) < Py.len p)
    as [Hp|(p & -> & Hp)].
  { destruct prompt as [p|]; [|left; exact I]. cbn [prompt_fits].
    destruct (Z_le_gt_dec (Py.len p)
                (max_prompt_len_of (set_max_duration 30 (self w))));
      [left; assumption|right; exists p; split; [reflexivity|lia]]. }
  - destruct (Qlt_le_dec 30 (duration (self w))) as [Hd|Hd].
    + destruct (Qlt_le_dec (extend_stride (self w)) 30) as [Hs|Hs].
      * rewrite (generate_tokens_extension _ _ _ _ _ Hd Hp Hs). unfold bind.
        match goal with
        | |- context [extend_loop ?a ?b ?c ?d ?x ?f ?g ?h ?i] =>
            destruct (extend_loop_frame a b c d x f g h i) as [Hself Herr];
            destruct (extend_loop a b c d x f g h i) as [[st| err |] w1]
        end; cbn [fst snd] in *.
        -- unfold torch_cat. destruct (all_tokens st); cbn;
             (split; [right; split; [exact Hd|exact Hself]|intros _; discriminate]).
        -- split; [right; split; [exact Hd|exact Hself]|].
           intros _ [= ->]. exact (Herr _ eq_refl).
        -- split; [right; split; [exact Hd|exact Hself]|intros _; discriminate].
      * rewrite (generate_tokens_bad_stride _ _ _ _ _ Hd Hp Hs). cbn.
        split; [left; reflexivity|intros _; discriminate].
    + rewrite (generate_tokens_single_shot _ _ _ _ _ Hd Hp), lm_call_run. cbn.
      split; [left; reflexivity|intros _].
      destruct (lm_generate _ _ _ _); discriminate.
  - rewrite (generate_tokens_too_long _ _ _ _ _ Hp). cbn.
    split; [left; reflexivity|lia].
Qed.

End Calls.

(** * Properties of the controller *)

(** ** Parameter setting *)

(** C8.  [set_generation_params] checks the stride before it stores anything:
    with [extend_stride >= max_duration] it raises the stride assertion and
    leaves the world (session fields, attributes, decoder log) as it was;
    with [extend_stride < max_duration] it succeeds and stores the stride, the
    duration and the sampling parameters, touching nothing else. *)
Theorem set_generation_params_guard
    (us : bool) (tk : Z) (tp t d cc : Q) (ts : bool) (es : Q) (w : world) :
  ((max_duration (self w) <= es)%Q ->
   set_generation_params us tk tp t d cc ts es w = (Raise StrideTooLarge, w)) /\
  ((es < max_duration (self w))%Q ->
   exists w',
     set_generation_params us tk tp t d cc ts es w = (Ok tt, w') /\
     extend_stride (self w') = es /\
     duration (self w') = d /\
     generation_params (self w') =
       {| use_sampling := us; temp := t; top_k := tk; top_p := tp;
          cfg_coef := cc; two_step_cfg := ts |} /\
     max_duration (self w') = max_duration (self w) /\
     fps (self w') = fps (self w) /\
     attributes w' = attributes w /\
     calls w' = calls w).
Proof.
  unfold set_generation_params, bind, get_self, set_self, assert, ret, raise.
  split; intros H.
  - apply Qltb_false in H. rewrite H. reflexivity.
  - apply Qltb_true in H. rewrite H. eexists. split; [reflexivity|].
    cbn. repeat split; reflexivity.
Qed.

(** The guard at [extend_stride = 30] and a successful store at 29.5, both
    against [max_duration = 30]. *)
Lemma set_generation_params_guard_witness :
  (set_generation_params true 250 0 1 60 3 false 30 (world_of (session_of 15 29.5))
   = (Raise StrideTooLarge, world_of (session_of 15 29.5))) /\
  (exists w',
     set_generation_params true 250 0 1 60 3 false 29.5 (world_of (session_of 15 10))
     = (Ok tt, w') /\ extend_stride (self w') = 29.5%Q /\ duration (self w') = 60%Q).
Proof.
  split.
  - apply (proj1 (set_generation_params_guard true 250 0 1 60 3 false 30
                    (world_of (session_of 15 29.5)))).
    vm_compute. discriminate.
  - destruct (proj2 (set_generation_params_guard true 250 0 1 60 3 false 29.5
                       (world_of (session_of 15 10))))
      as (w' & H1 & H2 & H3 & _).
    + vm_compute. reflexivity.
    + exists w'. repeat split; assumption.
Defined.

(** ** Strides *)



(** ** One call of [_generate_tokens] *)

Section SingleShot.
Context {lm : LMModel}.




End SingleShot.






(** ** One iteration of the extension loop *)

Lemma advance_window_reset (svf : Z) (v : list frame) :
  Py.len v - svf < 30 * 2 ->
  advance_window 30 2 svf v = lastn 60 v.
Proof.
  intros H. unfold advance_window.
  destruct (Z.ltb_spec (Py.len v - svf) (30 * 2)); [|lia].
  now rewrite slice_from_neg.
Qed.

Lemma advance_window_drop (svf : Z) (v : list frame) :
  30 * 2 <= Py.len v - svf ->
  advance_window 30 2 svf v = Py.slice_from svf v.
Proof.
  intros H. unfold advance_window.
  destruct (Z.ltb_spec (Py.len v - svf) (30 * 2)); [lia|reflexivity].
Qed.

Section Iteration.
Context {lm : LMModel}.



(** C6, amended.  When [stride_tokens >= 1], every completed iteration adds
    exactly [stride_tokens] to [current_gen_offset], which therefore strictly
    increases; and for [duration > 30] and [extend_stride < 30] the call ends
    within [ceil(total_gen_len / stride_tokens)] iterations: that much fuel
    is never exhausted and at most that many decoder calls are made. *)
Theorem stride_progress attrs prompt progress fuel w :
  1 <= stride_tokens_of (self w) ->
  (forall md vfps svf st w0 st' w1,
     loop_body md vfps progress (stride_tokens_of (self w)) svf st w0 = (Ok st', w1) ->
     current_gen_offset st' = current_gen_offset st + stride_tokens_of (self w) /\
     current_gen_offset st < current_gen_offset st') /\
  ((30 < duration (self w))%Q -> (extend_stride (self w) < 30)%Q ->
   (Z.to_nat (ceil_div (total_gen_len_of (self w)) (stride_tokens_of (self w))) <= fuel)%nat ->
   fst (_generate_tokens attrs prompt progress fuel w) <> OutOfFuel /\
   Z.of_nat (length (calls (snd (_generate_tokens attrs prompt progress fuel w))))
   <= Z.of_nat (length (calls w))
      + ceil_div (total_gen_len_of (self w)) (stride_tokens_of (self w))).
Proof.
  intros Hs. split.
  - intros md vfps svf st w0 st' w1 H.
    destruct (loop_body_cases md vfps progress (stride_tokens_of (self w)) svf st w0)
      as [_ [(e & He & _)|(st2 & Hst & Ho & _)]]; rewrite H in *; cbn in *.
    + discriminate.
    + injection Hst as <-. lia.
  - intros Hd He Hf.
    assert (Hc : 0 <= ceil_div (total_gen_len_of (self w)) (stride_tokens_of (self w))).
    { unfold ceil_div. apply Z.div_pos; [|lia].
      assert (0 <= total_gen_len_of (self w)); [|lia].
      apply int_nonneg. apply Qmult_le_0_compat; [|discriminate].
      apply Qlt_le_weak. now apply Qlt_trans with 30%Q. }
    assert (prompt_fits prompt (self w) \/
            exists p, prompt = Some p /\
                      max_prompt_len_of (set_max_duration 30 (self w)) < Py.len p)
      as [Hp|(p & -> & Hp)].
    { destruct prompt as [p|]; [|left; exact I]. cbn [prompt_fits].
      destruct (Z_le_gt_dec (Py.len p)
                  (max_prompt_len_of (set_max_duration 30 (self w))));
        [left; assumption|right; exists p; split; [reflexivity|lia]]. }
    + rewrite (generate_tokens_extension _ _ _ _ _ Hd Hp He). unfold bind.
      destruct (extend_loop_terminates 30 2 progress (total_gen_len_of (self w))
                  (stride_tokens_of (self w)) (stride_video_frames_of 2 (self w))
                  fuel (initial_state prompt) (extending attrs w) Hs)
        as [Hn Hcalls].
      * destruct prompt; cbn; [apply len_nonneg|lia].
      * pose proof (ceil_div_covers (total_gen_len_of (self w)) _ Hs).
        assert (current_gen_offset (initial_state prompt) = 0) as -> by (destruct prompt; reflexivity).
        nia.
      * assert (current_gen_offset (initial_state prompt) = 0) as E0 by (destruct prompt; reflexivity).
        rewrite E0, Z.sub_0_r, Z.max_r in Hcalls by assumption.
        cbn [calls extending] in Hcalls.
        destruct (extend_loop 30 2 progress (total_gen_len_of (self w))
                    (stride_tokens_of (self w)) (stride_video_frames_of 2 (self w))
                    fuel (initial_state prompt) (extending attrs w)) as [[st|err|] w1];
          cbn [fst snd] in *.
        -- unfold torch_cat. destruct (all_tokens st); cbn;
             (split; [discriminate|assumption]).
        -- split; [discriminate|assumption].
        -- congruence.
    + rewrite (generate_tokens_too_long _ _ _ _ _ Hp). cbn.
      split; [discriminate|lia].
Qed.

End Iteration.

(** C6, as stated, fails: with [duration = 60 > max_duration] and
    [extend_stride = 0 < max_duration] the stride is 0, and a completed
    iteration leaves [current_gen_offset] where it was. *)
Lemma stride_progress_counterexample :
  let s := session_of 60 0 in
  let w := {| self := s; attributes := video_pair 120; calls := [] |} in
  (max_duration s < duration s)%Q /\
  (extend_stride s < max_duration s)%Q /\
  exists st' w',
    @loop_body plus_decoder 30 2 false (stride_tokens_of s)
      (stride_video_frames_of 2 s) (initial_state None) w = (Ok st', w') /\
    ~ (current_gen_offset (initial_state None) < current_gen_offset st').
Proof.
  cbv zeta. split; [reflexivity|]. split; [reflexivity|].
  do 2 eexists. split; [vm_compute; reflexivity|].
  cbn. lia.
Qed.

(** ** Length of the generated sequence *)




Section Length.
Context {lm : LMModel}.


End Length.



(** ** The length under the other reading of the decoder contract *)

Lemma total_decoder_meets_total_contract : meets_total_contract total_decoder.
Proof.
  intros p a n g Hn. eexists. split; [reflexivity|].
  unfold Py.len. rewrite length_firstn, length_app, repeat_length.
  assert (0 <= plen p) by (destruct p; [apply len_nonneg|reflexivity]).
  lia.
Qed.

Lemma Qnum_nonpos (x : Q) : (x <= 0)%Q -> Qnum x <= 0.
Proof. unfold Qle; simpl. lia. Qed.

Section TotalLength.
Context {lm : LMModel}.



End TotalLength.


(** ** Conditioning records beyond [max_duration] *)

Section Records.
Context {lm : LMModel} {codec : CompressionModel}.
Variable convert_audio : waveform -> Z -> Z -> Z -> waveform.
Variable has_self_wav : bool.

(** With conditioning records for attributes, an iteration stops at the pair
    assertion or at the slice, before the decoder is called. *)
Lemma loop_body_records md vfps progress stt svf st w cs :
  attributes w = map Cond cs ->
  exists e, loop_body md vfps progress stt svf st w = (Raise e, w).
Proof.
  intros Ha. unfold loop_body, bind, get_self, get_attributes. rewrite Ha.
  destruct cs as [|c0 [|c1 [|c2 r]]]; cbn; eexists; reflexivity.
Qed.

Lemma generate_tokens_records cs prompt progress f w :
  (30 < duration (self w))%Q ->
  calls (snd (_generate_tokens (map Cond cs) prompt progress (S f) w)) = calls w /\
  fst (_generate_tokens (map Cond cs) prompt progress (S f) w) <> OutOfFuel /\
  (forall t, fst (_generate_tokens (map Cond cs) prompt progress (S f) w) = Ok t ->
             prompt = Some t /\
             Py.len t = total_gen_len_of (self w) /\
             total_gen_len_of (self w) = 30 * frame_rate) /\
  (prompt = None ->
   exists e, fst (_generate_tokens (map Cond cs) prompt progress (S f) w) = Raise e).
Proof.
  intros Hd.
  assert (HT : 30 * frame_rate <= total_gen_len_of (self w)).
  { unfold total_gen_len_of. rewrite <- (int_inject (30 * frame_rate)).
    apply int_mono; [discriminate|].
    rewrite inject_Z_mult. apply Qmult_le_compat_r; [|discriminate].
    now apply Qlt_le_weak. }
  assert (prompt_fits prompt (self w) \/
          exists p, prompt = Some p /\
                    max_prompt_len_of (set_max_duration 30 (self w)) < Py.len p)
    as [Hp|(p & -> & Hp)].
  { destruct prompt as [p|]; [|left; exact I]. cbn [prompt_fits].
    destruct (Z_le_gt_dec (Py.len p)
                (max_prompt_len_of (set_max_duration 30 (self w))));
      [left; assumption|right; exists p; split; [reflexivity|lia]]. }
  - destruct (Qlt_le_dec (extend_stride (self w)) 30) as [Hs|Hs].
    + rewrite (generate_tokens_extension _ _ _ _ _ Hd Hp Hs).
      unfold bind. cbn [extend_loop].
      destruct (Z.ltb_spec (current_gen_offset (initial_state prompt)
                            + prompt_length (initial_state prompt))
                           (total_gen_len_of (self w))) as [C|C].
      * unfold bind.
        destruct (loop_body_records 30 2 progress (stride_tokens_of (self w))
                    (stride_video_frames_of 2 (self w)) (initial_state prompt)
                    (extending (map Cond cs) w) cs eq_refl) as [e ->].
        cbn. split; [reflexivity|]. split; [discriminate|]. split; [discriminate|].
        intros _. now exists e.
      * destruct prompt as [p|]; cbn in C |- *.
        -- rewrite app_nil_r.
           split; [reflexivity|]. split; [discriminate|]. split; [|discriminate].
           intros t [= <-]. split; [reflexivity|].
           cbn [prompt_fits] in Hp. unfold max_prompt_len_of in Hp.
           cbn [duration max_duration set_max_duration] in Hp.
           rewrite (int_of_integer _ (30 * frame_rate)) in Hp;
             [unfold Py.len, frame_rate in *; split; lia|].
           rewrite (Q.min_r _ _ (Qlt_le_weak _ _ Hd)).
           now rewrite inject_Z_mult.
        -- split; [reflexivity|]. split; [discriminate|]. split; [discriminate|].
           intros _. eexists; reflexivity.
    + rewrite (generate_tokens_bad_stride _ _ _ _ _ Hd Hp Hs). cbn.
      split; [reflexivity|]. split; [discriminate|]. split; [discriminate|].
      intros _. eexists; reflexivity.
  - rewrite (generate_tokens_too_long _ _ _ _ _ Hp). cbn.
    split; [reflexivity|]. split; [discriminate|]. split; discriminate.
Qed.

Lemma prepare_without_prompt (descriptions : list (option string)) (w : world) :
  exists cs,
    _prepare_tokens_and_attributes has_self_wav descriptions None None w
    = (Ok (map Cond cs, None), w).
Proof.
  unfold _prepare_tokens_and_attributes, bind, ret. eexists. reflexivity.
Qed.

Lemma prepare_with_prompt (descriptions : list (option string)) (p : waveform) (w : world) :
  (exists e, _prepare_tokens_and_attributes has_self_wav descriptions (Some p) None w
             = (Raise e, w)) \/
  (exists cs,
     _prepare_tokens_and_attributes has_self_wav descriptions (Some p) None w
     = (Ok (map Cond cs, Some (fst (encode p))), w)).
Proof.
  unfold _prepare_tokens_and_attributes, bind, ret, assert, raise.
  destruct (length descriptions =? wlen p)%nat; [|left; eexists; reflexivity].
  destruct (encode p) as [t [sc|]]; [left|right]; eexists; reflexivity.
Qed.

(** C10, amended.  For [duration > 30]: unconditional generation always
    raises, without a decoder call; continuation generation never calls the
    decoder either, and can only succeed by returning an encoded prompt that
    already has [total_gen_len = 1500] steps, the loop body never being
    entered. *)
Theorem records_beyond_max_duration (w : world) (progress : bool) (f : nat) :
  (30 < duration (self w))%Q ->
  (forall n,
     (exists e, fst (generate_unconditional has_self_wav n progress (S f) w) = Raise e) /\
     calls (snd (generate_unconditional has_self_wav n progress (S f) w)) = calls w) /\
  (forall prompt rate descriptions,
     calls (snd (generate_continuation convert_audio has_self_wav prompt rate
                   descriptions progress (S f) w)) = calls w /\
     fst (generate_continuation convert_audio has_self_wav prompt rate
            descriptions progress (S f) w) <> OutOfFuel /\
     (forall out,
        fst (generate_continuation convert_audio has_self_wav prompt rate
               descriptions progress (S f) w) = Ok out ->
        Py.len (snd out) = total_gen_len_of (self w) /\
        total_gen_len_of (self w) = 30 * frame_rate /\
        exists pw, fst (encode pw) = snd out)).
Proof.
  intros Hd. split.
  - intros n. unfold generate_unconditional, bind.
    destruct (prepare_without_prompt (repeat None n) w) as [cs ->].
    cbn [fst snd].
    destruct (generate_tokens_records cs None progress f w Hd)
      as (Hcalls & _ & _ & Hraise).
    destruct (Hraise eq_refl) as [e He].
    destruct (_generate_tokens (map Cond cs) None progress (S f) w) as [r w1].
    cbn [fst snd] in *. subst r. split; [now exists e|assumption].
  - intros prompt rate descriptions.
    unfold generate_continuation, bind, assert, ret, raise.
    match goal with
    | |- context [(wdim ?p1 =? 3)%nat] => destruct (wdim p1 =? 3)%nat
    end; [|cbn; split; [reflexivity|split; discriminate]].
    match goal with
    | |- context [_prepare_tokens_and_attributes _ ?d (Some ?p) None w] =>
        destruct (prepare_with_prompt d p w) as [[e ->]|[cs ->]];
        [cbn; split; [reflexivity|split; discriminate]|];
        set (pw := p) in *
    end.
    cbn [fst snd].
    destruct (generate_tokens_records cs (Some (fst (encode pw))) progress f w Hd)
      as (Hcalls & Hfuel & Hok & _).
    destruct (_generate_tokens (map Cond cs) (Some (fst (encode pw))) progress (S f) w)
      as [[t|e|] w1]; cbn [fst snd] in *.
    + unfold generate_audio, ret. cbn.
      split; [assumption|]. split; [discriminate|].
      intros out [= <-]. cbn.
      destruct (Hok t eq_refl) as ([= E] & Hl & HT).
      split; [assumption|]. split; [assumption|]. now exists pw.
    + split; [assumption|]. split; discriminate.
    + congruence.
Qed.

End Records.

(** C10, as stated, fails: with [duration = 30 + 1/128] ([total_gen_len] is
    1500) a continuation from a prompt that encodes to 1500 steps succeeds,
    on conditioning records, with no decoder call; the prompt is returned. *)
Lemma records_counterexample :
  let w := world_of (session_of (3841 # 128) 29.5) in
  let r := @generate_continuation plus_decoder plain_codec keep_audio false
             (wave_of 1500) 32000 None false 5 w in
  (max_duration (self w) < duration (self w))%Q /\
  (exists audio, fst r = Ok (audio, repeat 2 1500%nat)) /\
  calls (snd r) = [] /\
  (exists c, attributes (snd r) = [Cond c]).
Proof.
  cbv zeta. split; [reflexivity|].
  split; [eexists; vm_compute; reflexivity|].
  split; [vm_compute; reflexivity|].
  eexists; vm_compute; reflexivity.
Qed.

(** Unconditional generation of two samples at [duration = 60] raises. *)
Lemma records_beyond_max_duration_witness :
  exists e,
    fst (@generate_unconditional plus_decoder plain_codec false 2 false 1
           (world_of (session_of 60 29.5))) = Raise e.
Proof.
  destruct (@records_beyond_max_duration plus_decoder plain_codec keep_audio false
              (world_of (session_of 60 29.5)) false 0) as [H _].
  - reflexivity.
  - exact (proj1 (H 2%nat)).
Defined.

(** ** The iteration and the scenarios on concrete inputs *)



(** At [duration = 60] and [extend_stride = 29.5] the bound is
    [ceil(3000 / 1475) = 3] iterations. *)
Lemma stride_progress_witness :
  let w := world_of (session_of 60 29.5) in
  let r := @_generate_tokens plus_decoder (video_pair 120) None false 3 w in
  fst r <> OutOfFuel /\ Z.of_nat (length (calls (snd r))) <= 3.
Proof.
  cbv zeta.
  destruct (@stride_progress plus_decoder (video_pair 120) None false 3
              (world_of (session_of 60 29.5))) as [_ H].
  - vm_compute. discriminate.
  - apply H.
    + reflexivity.
    + reflexivity.
    + vm_compute. lia.
Defined.

(** Scenario A: [duration = 15], one decoder call for 750 steps, whose output
    is the result. *)
Example scenario_A :
  let r := @_generate_tokens plus_decoder (video_pair 30) None false 0
             (world_of (session_of 15 29.5)) in
  fst r = Ok (repeat 7 750%nat) /\
  map call_max_gen_len (calls (snd r)) = [750].
Proof. split; vm_compute; reflexivity. Qed.

(** Scenario B: [duration = 60], [extend_stride = 29.5]: the stride is 1475
    steps, two decoder calls are made and the result has 3000 steps. *)
Example scenario_B :
  let s := session_of 60 29.5 in
  let r := @_generate_tokens plus_decoder (video_pair 120) None false 2 (world_of s) in
  stride_tokens_of s = 1475 /\
  (exists t, fst r = Ok t /\ Py.len t = 3000) /\
  map (fun c => (plen (call_prompt c), call_max_gen_len c)) (calls (snd r))
  = [(0, 1500); (25, 1500)].
Proof.
  cbv zeta. split; [vm_compute; reflexivity|].
  split; [eexists; split; vm_compute; reflexivity|].
  vm_compute; reflexivity.
Qed.

(** A negative stride: [extend_stride = -1] passes both stride assertions,
    the offset decreases and four units of fuel do not end the loop. *)
Example negative_stride :
  let s := session_of 60 (-1) in
  let r := @_generate_tokens plus_decoder (video_pair 120) None false 4 (world_of s) in
  stride_tokens_of s = -50 /\ fst r = OutOfFuel.
Proof. split; vm_compute; reflexivity. Qed.

(** * Further properties *)

(** ** The loop, case by case *)

Section LoopCases.
Context {lm : LMModel}.

(** On anything but a pair headed by a tensor, an iteration raises and
    leaves the world as it is. *)
Lemma loop_body_not_pair md vfps progress stt svf st w :
  (forall v g, attributes w <> [Video v; g]) ->
  exists e, loop_body md vfps progress stt svf st w = (Raise e, w) /\
            (e = AttributesNotAPair \/ e = NotATensor).
Proof.
  intros H. unfold loop_body, bind, get_self, get_attributes.
  destruct (attributes w) as [|a0 [|a1 [|a2 r]]] eqn:Ha; cbn;
    try (eexists; split; [reflexivity|left; reflexivity]).
  destruct a0 as [v|c]; [exfalso; exact (H v a1 eq_refl)|].
  cbn. eexists; split; [reflexivity|right; reflexivity].
Qed.

(** On such a pair, an iteration makes the call [loop_call] and either
    passes on the decoder's failure or moves to the next state. *)
Lemma loop_body_pair md vfps progress stt svf st w v g :
  attributes w = [Video v; g] ->
  loop_body md vfps progress stt svf st w =
  match lm_generate (call_prompt (loop_call md vfps progress st (self w) v g))
          (call_attributes (loop_call md vfps progress st (self w) v g))
          (call_max_gen_len (loop_call md vfps progress st (self w) v g))
          (generation_params (self w)) with
  | inr msg =>
      (Raise (External msg),
       {| self := self w; attributes := attributes w;
          calls := calls w ++ [loop_call md vfps progress st (self w) v g] |})
  | inl gen =>
      (Ok {| prompt_tokens := Some (Py.slice_from stt gen);
             prompt_length := Py.len (Py.slice_from stt gen);
             all_tokens := all_tokens st ++
               [match prompt_tokens st with
                | None => gen
                | Some p => Py.slice_from (Py.len p) gen
                end];
             current_gen_offset := current_gen_offset st + stt |},
       {| self := self w;
          attributes := [Video (advance_window md vfps svf v); g];
          calls := calls w ++ [loop_call md vfps progress st (self w) v g] |})
  end.
Proof.
  intros Ha. cbn [loop_call call_prompt call_attributes call_max_gen_len].
  destruct (lm_generate (prompt_tokens st)
      [Video (Py.slice_to
              (Py.int (chunk_duration_of md (self w) (current_gen_offset st) * inject_Z vfps)) v); g]
      (Py.int (chunk_duration_of md (self w) (current_gen_offset st) * inject_Z frame_rate))
      (generation_params (self w))) as [gen|msg] eqn:Hg.
  - exact (loop_body_run _ _ _ _ _ _ _ _ _ _ Ha Hg).
  - unfold loop_body, bind, get_self, get_attributes. rewrite Ha.
    cbn [time_slice_to ret]. unfold lm_call. cbn [self attributes calls].
    rewrite Hg, Ha. reflexivity.
Qed.

Lemma new_calls_refl P w : new_calls P w w.
Proof. exists []. split; [now rewrite app_nil_r|constructor]. Qed.

Lemma new_calls_trans P w1 w2 w3 :
  new_calls P w1 w2 -> new_calls P w2 w3 -> new_calls P w1 w3.
Proof.
  intros (n1 & E1 & F1) (n2 & E2 & F2). exists (n1 ++ n2). split.
  - now rewrite E2, E1, app_assoc.
  - apply Forall_app. now split.
Qed.

Lemma new_calls_impl (P Q : decoder_call -> Prop) w w' :
  (forall c, P c -> Q c) -> new_calls P w w' -> new_calls Q w w'.
Proof.
  intros H (n & E & F). exists n. split; [assumption|].
  now apply (Forall_impl Q H).
Qed.

(** An invariant [I] of the loop variables, an invariant [J] of the world
    and a property [P] of the calls carry over from the iterations to the
    whole loop, whatever its outcome. *)
Lemma extend_loop_invariant (I : gen_state -> Prop) (J : world -> Prop)
    (P : decoder_call -> Prop) md vfps progress T stt svf :
  (forall st w, I st -> J w -> current_gen_offset st + prompt_length st < T ->
     new_calls P w (snd (loop_body md vfps progress stt svf st w)) /\
     J (snd (loop_body md vfps progress stt svf st w)) /\
     forall st', fst (loop_body md vfps progress stt svf st w) = Ok st' -> I st') ->
  forall fuel st w, I st -> J w ->
    new_calls P w (snd (extend_loop md vfps progress T stt svf fuel st w)) /\
    J (snd (extend_loop md vfps progress T stt svf fuel st w)) /\
    forall st', fst (extend_loop md vfps progress T stt svf fuel st w) = Ok st' -> I st'.
Proof.
  intros Hstep.
  induction fuel as [|fuel IH]; intros st w Hi Hj; cbn [extend_loop];
    destruct (Z.ltb_spec (current_gen_offset st + prompt_length st) T) as [C|C];
    try (cbn; split; [apply new_calls_refl|split; [assumption|]];
         intros st' [= <-]; assumption);
    try (cbn; split; [apply new_calls_refl|split; [assumption|discriminate]]).
  unfold bind. destruct (Hstep st w Hi Hj C) as (Hn & Hj1 & Hok).
  destruct (loop_body md vfps progress stt svf st w) as [[st1|e|] w1];
    cbn [fst snd] in *.
  - destruct (IH st1 w1 (Hok st1 eq_refl) Hj1) as (Hn' & Hj' & Hok').
    split; [exact (new_calls_trans _ _ _ _ Hn Hn')|split; assumption].
  - split; [assumption|split; [assumption|discriminate]].
  - split; [assumption|split; [assumption|discriminate]].
Qed.

End LoopCases.

(** ** Chunk lengths and windows *)

Lemma int_le_of_le (x : Q) (k : Z) : (x <= inject_Z k)%Q -> Py.int x <= k.
Proof.
  intros H. destruct (Qlt_le_dec x 0) as [N|N].
  - rewrite int_ceiling by (apply Qnum_nonpos; now apply Qlt_le_weak).
    rewrite <- (Qceiling_Z k). now apply Qceiling_resp_le.
  - rewrite <- (int_inject k). now apply int_mono.
Qed.

Lemma int_below (x : Q) : (0 <= x)%Q -> (inject_Z (Py.int x) <= x)%Q.
Proof.
  intros H. rewrite int_floor by now apply Qnum_nonneg. apply Qfloor_le.
Qed.

Lemma chunk_request_le (s : session) (o : Z) :
  Py.int (chunk_duration_of 30 s o * inject_Z frame_rate) <= 30 * frame_rate.
Proof.
  apply int_le_of_le. rewrite inject_Z_mult.
  apply Qmult_le_compat_r; [|discriminate].
  unfold chunk_duration_of. apply Q.le_min_r.
Qed.

(** Inside the loop of a duration above 30 the chunk lasts between one step
    and 30 seconds. *)
Lemma chunk_duration_bounds (s : session) (o p : Z) :
  (30 < duration s)%Q ->
  0 <= p ->
  o + p < total_gen_len_of s ->
  (1 <= chunk_duration_of 30 s o * inject_Z frame_rate)%Q /\
  (chunk_duration_of 30 s o <= 30)%Q.
Proof.
  intros Hd Hp Ho. split; [|unfold chunk_duration_of; apply Q.le_min_r].
  assert (H0 : (0 <= duration s * inject_Z frame_rate)%Q).
  { apply Qmult_le_0_compat; [|discriminate].
    apply Qlt_le_weak. now apply Qlt_trans with 30%Q. }
  pose proof (int_below _ H0) as Hb. fold (total_gen_len_of s) in Hb.
  assert (Hx : (1 <= (duration s - inject_Z o / inject_Z frame_rate) * inject_Z frame_rate)%Q).
  { assert (E : ((duration s - inject_Z o / inject_Z frame_rate) * inject_Z frame_rate
                 == duration s * inject_Z frame_rate - inject_Z o)%Q)
      by (unfold frame_rate; field).
    rewrite E.
    apply Qle_trans with (inject_Z (total_gen_len_of s) - inject_Z o)%Q.
    - unfold Qminus. rewrite <- inject_Z_opp, <- inject_Z_plus.
      change 1%Q with (inject_Z 1). rewrite <- Zle_Qle. lia.
    - unfold Qminus. apply Qplus_le_l. exact Hb. }
  unfold chunk_duration_of.
  destruct (Q.min_spec (duration s - inject_Z o / inject_Z frame_rate) (inject_Z 30))
    as [[_ ->]|[_ ->]]; [exact Hx|discriminate].
Qed.

Lemma chunk_request_bounds (s : session) (o p : Z) :
  (30 < duration s)%Q ->
  0 <= p ->
  o + p < total_gen_len_of s ->
  1 <= Py.int (chunk_duration_of 30 s o * inject_Z frame_rate) <= 30 * frame_rate /\
  0 <= Py.int (chunk_duration_of 30 s o * inject_Z 2) <= 60 /\
  (Py.int (chunk_duration_of 30 s o * inject_Z frame_rate) = 30 * frame_rate ->
   Py.int (chunk_duration_of 30 s o * inject_Z 2) = 60).
Proof.
  intros Hd Hp Ho.
  destruct (chunk_duration_bounds s o p Hd Hp Ho) as [H1 H30].
  assert (Hpos : (0 <= chunk_duration_of 30 s o)%Q).
  { apply Qnot_lt_le. intros N.
    apply (Qlt_not_le _ _ (Qmult_lt_compat_r _ _ (inject_Z frame_rate) ltac:(reflexivity) N)).
    rewrite Qmult_0_l. apply Qle_trans with 1%Q; [discriminate|exact H1]. }
  split; [split|split; [split|]].
  - rewrite <- (int_inject 1). apply int_mono; [discriminate|exact H1].
  - apply chunk_request_le.
  - apply int_nonneg. apply Qmult_le_0_compat; [assumption|discriminate].
  - apply int_le_of_le. change (inject_Z 60) with (30 * inject_Z 2)%Q.
    apply Qmult_le_compat_r; [assumption|discriminate].
  - intros Hfull.
    assert (Hge : (30 <= chunk_duration_of 30 s o)%Q).
    { apply Qnot_lt_le. intros N.
      assert (Py.int (chunk_duration_of 30 s o * inject_Z frame_rate) < 30 * frame_rate);
        [|lia].
      apply int_lt_of_lt.
      - apply Qmult_le_0_compat; [assumption|discriminate].
      - rewrite inject_Z_mult. apply Qmult_lt_compat_r; [reflexivity|exact N]. }
    apply int_of_integer.
    rewrite (Qle_antisym _ _ H30 Hge). reflexivity.
Qed.

Lemma suffix_of_refl {A} (v : list A) : suffix_of v v.
Proof. now exists []. Qed.

Lemma suffix_of_trans {A} (a b c : list A) :
  suffix_of a b -> suffix_of b c -> suffix_of a c.
Proof.
  intros [p1 ->] [p2 ->]. exists (p2 ++ p1). now rewrite app_assoc.
Qed.

Lemma slice_from_suffix {A} (i : Z) (l : list A) : suffix_of (Py.slice_from i l) l.
Proof.
  unfold Py.slice_from. exists (firstn (Py.bound i (length l)) l).
  now rewrite firstn_skipn.
Qed.

Lemma slice_to_segment {A} (i : Z) (l v : list A) :
  suffix_of l v -> segment_of (Py.slice_to i l) v.
Proof.
  intros [pre ->]. unfold Py.slice_to.
  exists pre, (skipn (Py.bound i (length l)) l). now rewrite firstn_skipn.
Qed.

Lemma slice_to_length {A} (i : Z) (l : list A) :
  0 <= i -> length (Py.slice_to i l) = Nat.min (Z.to_nat i) (length l).
Proof.
  intros Hi. rewrite slice_to_nonneg by assumption. apply length_firstn.
Qed.

Lemma advance_window_suffix (svf : Z) (v : list frame) :
  suffix_of (advance_window 30 2 svf v) v.
Proof.
  unfold advance_window.
  destruct (Py.len v - svf <? 30 * 2); apply slice_from_suffix.
Qed.

(** The window does not under-run: from 60 frames on, with a stride that is
    not negative, it keeps at least 60. *)
Lemma advance_window_keeps (svf : Z) (v : list frame) :
  (60 <= length v)%nat -> 0 <= svf ->
  (60 <= length (advance_window 30 2 svf v))%nat.
Proof.
  intros Hv Hs.
  destruct (Z_lt_le_dec (Py.len v - svf) (30 * 2)) as [L|L].
  - rewrite advance_window_reset by assumption. rewrite lastn_length. lia.
  - rewrite advance_window_drop by assumption.
    pose proof (slice_from_len svf v Hs) as E. unfold Py.len in *. lia.
Qed.

(** ** What the decoder is asked *)

Section Asked.
Context {lm : LMModel}.

Lemma new_calls_none (P : decoder_call -> Prop) w w' :
  calls w' = calls w -> new_calls P w w'.
Proof. intros E. exists []. split; [now rewrite app_nil_r|constructor]. Qed.

Lemma plain_step (s : session) progress stt svf st w :
  self w = s ->
  new_calls (call_plain s progress) w (snd (loop_body 30 2 progress stt svf st w)) /\
  self (snd (loop_body 30 2 progress stt svf st w)) = s.
Proof.
  intros Hs.
  assert ((exists v g, attributes w = [Video v; g]) \/
          (forall v g, attributes w <> [Video v; g])) as [(v & g & Ha)|Hn].
  { destruct (attributes w) as [|[v|c] [|g [|x r]]];
      try (right; intros v' g'; discriminate).
    left. now exists v, g. }
  - rewrite (loop_body_pair _ _ _ _ _ _ _ _ _ Ha).
    assert (Hc : call_plain s progress (loop_call 30 2 progress st (self w) v g)).
    { unfold call_plain, loop_call; cbn. rewrite Hs.
      split; [reflexivity|]. split; [reflexivity|]. apply chunk_request_le. }
    destruct (lm_generate _ _ _ _); cbn; (split; [|assumption]);
      (eexists; split; [reflexivity|]; constructor; [exact Hc|constructor]).
  - destruct (loop_body_not_pair 30 2 progress stt svf st w Hn) as (e & -> & _).
    cbn. split; [apply new_calls_refl|assumption].
Qed.

Lemma windowed_step (s : session) (v : list frame) (g : attribute) progress stt svf st w :
  (30 < duration s)%Q ->
  0 <= prompt_length st ->
  window_world s v g svf w ->
  current_gen_offset st + prompt_length st < total_gen_len_of s ->
  new_calls (call_windowed v g svf) w (snd (loop_body 30 2 progress stt svf st w)) /\
  window_world s v g svf (snd (loop_body 30 2 progress stt svf st w)) /\
  forall st', fst (loop_body 30 2 progress stt svf st w) = Ok st' ->
              0 <= prompt_length st'.
Proof.
  intros Hd Hp (Hs & v' & Ha & Hsuf & Hlen) Ho.
  rewrite (loop_body_pair _ _ _ _ _ _ _ _ _ Ha).
  destruct (chunk_request_bounds s _ _ Hd Hp Ho) as (Hm & Hn & Hfull).
  assert (Hc : call_windowed v g svf (loop_call 30 2 progress st (self w) v' g)).
  { unfold call_windowed, loop_call; cbn. rewrite Hs.
    split; [exact Hm|]. eexists. split; [reflexivity|].
    split; [now apply slice_to_segment|].
    rewrite slice_to_length by lia. split; [lia|].
    intros F Hv Hsv. specialize (Hfull F). specialize (Hlen Hv Hsv). lia. }
  destruct (lm_generate _ _ _ _) as [gen|msg]; cbn [fst snd].
  - split; [eexists; split; [reflexivity|]; constructor; [exact Hc|constructor]|].
    split.
    + split; [exact Hs|]. exists (advance_window 30 2 svf v').
      split; [reflexivity|]. split.
      * exact (suffix_of_trans _ _ _ (advance_window_suffix svf v') Hsuf).
      * intros Hv Hsv. apply advance_window_keeps; [now apply Hlen|assumption].
    + intros st' [= <-]. cbn. apply len_nonneg.
  - split; [eexists; split; [reflexivity|]; constructor; [exact Hc|constructor]|].
    split; [|discriminate].
    split; [exact Hs|]. exists v'. rewrite Ha. split; [reflexivity|]. now split.
Qed.

(** The world of a run of [_generate_tokens], path by path. *)
Lemma generate_tokens_world attrs prompt progress fuel w :
  (snd (_generate_tokens attrs prompt progress fuel w) = entered attrs w) \/
  ((duration (self w) <= 30)%Q /\
   _generate_tokens attrs prompt progress fuel w
   = lm_call prompt attrs (total_gen_len_of (self w)) progress (entered attrs w)) \/
  ((30 < duration (self w))%Q /\
   snd (_generate_tokens attrs prompt progress fuel w)
   = snd (extend_loop 30 2 progress (total_gen_len_of (self w))
            (stride_tokens_of (self w)) (stride_video_frames_of 2 (self w))
            fuel (initial_state prompt) (extending attrs w))).
Proof.
  assert (prompt_fits prompt (self w) \/
          exists p, prompt = Some p /\
                    max_prompt_len_of (set_max_duration 30 (self w)) < Py.len p)
    as [Hp|(p & -> & Hp)].
  { destruct prompt as [p|]; [|left; exact I]. cbn [prompt_fits].
    destruct (Z_le_gt_dec (Py.len p)
                (max_prompt_len_of (set_max_duration 30 (self w))));
      [left; assumption|right; exists p; split; [reflexivity|lia]]. }
  - destruct (Qlt_le_dec 30 (duration (self w))) as [Hd|Hd].
    + destruct (Qlt_le_dec (extend_stride (self w)) 30) as [Hs|Hs].
      * right; right. split; [assumption|].
        rewrite (generate_tokens_extension _ _ _ _ _ Hd Hp Hs). unfold bind.
        destruct (extend_loop _ _ _ _ _ _ _ _ _) as [[st|e|] w1]; cbn; try reflexivity.
        unfold torch_cat. destruct (all_tokens st); reflexivity.
      * left. now rewrite (generate_tokens_bad_stride _ _ _ _ _ Hd Hp Hs).
    + right; left. split; [assumption|].
      now apply generate_tokens_single_shot.
  - left. now rewrite (generate_tokens_too_long _ _ _ _ _ Hp).
Qed.

(** X4.  Every decoder call of a run of [_generate_tokens], on either path and
    whatever the attributes, carries the sampling parameters of the session
    and the progress flag, and asks for at most [30 * frame_rate = 1500]
    steps. *)
Theorem calls_carry_session_parameters attrs prompt progress fuel w :
  new_calls (call_plain (self w) progress) w
    (snd (_generate_tokens attrs prompt progress fuel w)).
Proof.
  destruct (generate_tokens_world attrs prompt progress fuel w)
    as [E|[[Hd E]|[Hd E]]]; rewrite E.
  - apply new_calls_none; reflexivity.
  - rewrite lm_call_run. cbn [snd].
    eexists. split; [reflexivity|]. constructor; [|constructor].
    unfold call_plain.
    cbn [call_params call_callback call_max_gen_len entered self].
    split; [reflexivity|]. split; [reflexivity|].
    unfold total_gen_len_of. apply int_le_of_le. rewrite inject_Z_mult.
    apply Qmult_le_compat_r; [assumption|discriminate].
  - pose (s := set_fps 2 (set_max_duration 30 (self w))).
    destruct (extend_loop_invariant (fun _ => True) (fun w0 => self w0 = s)
                (call_plain s progress) 30 2 progress (total_gen_len_of (self w))
                (stride_tokens_of (self w)) (stride_video_frames_of 2 (self w)))
      with (fuel := fuel) (st := initial_state prompt) (w := extending attrs w)
      as (Hn & _ & _).
    + intros st w0 _ Hs _.
      destruct (plain_step s progress (stride_tokens_of (self w))
                  (stride_video_frames_of 2 (self w)) st w0 Hs) as [H1 H2].
      split; [exact H1|]. split; [exact H2|]. intros; exact I.
    + exact I.
    + reflexivity.
    + exact Hn.
Qed.


(** X6.  For [duration > 30], a stride that is not negative and a window of at
    least 60 frames: every decoder call for a full chunk of 1500 steps gets
    exactly 60 frames, and the window left behind still has at least 60. *)
Theorem window_never_underruns v g prompt progress fuel w :
  (30 < duration (self w))%Q ->
  (0 <= extend_stride (self w))%Q ->
  (60 <= length v)%nat ->
  new_calls
    (fun c =>
       call_max_gen_len c = 30 * frame_rate ->
       exists l, call_attributes c = [Video l; g] /\ length l = 60%nat)
    w (snd (_generate_tokens [Video v; g] prompt progress fuel w)) /\
  exists v',
    attributes (snd (_generate_tokens [Video v; g] prompt progress fuel w))
    = [Video v'; g] /\ (60 <= length v')%nat.
Proof.
  intros Hd Hes Hv.
  assert (Hsv : 0 <= stride_video_frames_of 2 (self w)).
  { apply int_nonneg. apply Qmult_le_0_compat; [discriminate|assumption]. }
  destruct (generate_tokens_world [Video v; g] prompt progress fuel w)
    as [E|[[Hd' E]|[_ E]]]; rewrite E.
  - split; [apply new_calls_none; reflexivity|]. exists v. split; [reflexivity|assumption].
  - exfalso. exact (Qlt_not_le _ _ Hd Hd').
  - pose (s := set_fps 2 (set_max_duration 30 (self w))).
    pose (svf := stride_video_frames_of 2 (self w)).
    destruct (extend_loop_invariant (fun st => 0 <= prompt_length st)
                (window_world s v g svf) (call_windowed v g svf)
                30 2 progress (total_gen_len_of (self w))
                (stride_tokens_of (self w)) svf)
      with (fuel := fuel) (st := initial_state prompt) (w := extending [Video v; g] w)
      as (Hn & (_ & v' & Ha & _ & Hlen) & _).
    + intros st w0 Hp Hw Ho.
      exact (windowed_step s v g progress (stride_tokens_of (self w)) svf st w0
               Hd Hp Hw Ho).
    + destruct prompt; cbn; [apply len_nonneg|lia].
    + split; [reflexivity|]. exists v. split; [reflexivity|].
      split; [apply suffix_of_refl|]. intros; assumption.
    + split.
      * refine (new_calls_impl _ _ (extending [Video v; g] w) _ _ Hn).
        intros c (_ & l & H2 & _ & _ & H5) F. exists l. split; [exact H2|].
        now apply H5.
      * exists v'. split; [exact Ha|]. now apply Hlen.
Qed.

End Asked.

(** ** Outcomes of the extension loop *)

Section Outcomes.
Context {lm : LMModel}.

(** A completed iteration ran on a pair headed by a tensor, appended one
    chunk and left such a pair behind. *)
Lemma loop_body_completed md vfps progress stt svf st w st1 w1 :
  loop_body md vfps progress stt svf st w = (Ok st1, w1) ->
  exists v g (gen chunk : tokens),
    attributes w = [Video v; g] /\
    attributes w1 = [Video (advance_window md vfps svf v); g] /\
    all_tokens st1 = all_tokens st ++ [chunk] /\
    current_gen_offset st1 = current_gen_offset st + stt /\
    prompt_length st1 = Py.len (Py.slice_from stt gen).
Proof.
  intros H.
  assert ((exists v g, attributes w = [Video v; g]) \/
          (forall v g, attributes w <> [Video v; g])) as [(v & g & Ha)|Hn].
  { destruct (attributes w) as [|[v|c] [|g [|x r]]];
      try (right; intros v' g'; discriminate).
    left. now exists v, g. }
  - rewrite (loop_body_pair _ _ _ _ _ _ _ _ _ Ha) in H.
    destruct (lm_generate _ _ _ _) as [gen|msg]; [|discriminate].
    injection H as <- <-. exists v, g, gen. eexists.
    split; [exact Ha|]. repeat split; reflexivity.
  - destruct (loop_body_not_pair md vfps progress stt svf st w Hn) as (e & E & _).
    rewrite E in H. discriminate.
Qed.

(** The loop only appends chunks, and appends at least one when it is
    entered. *)
Lemma extend_loop_appends md vfps progress T stt svf fuel : forall st w st' w',
  extend_loop md vfps progress T stt svf fuel st w = (Ok st', w') ->
  exists extra,
    all_tokens st' = all_tokens st ++ extra /\
    (current_gen_offset st + prompt_length st < T -> extra <> []).
Proof.
  induction fuel as [|fuel IH]; intros st w st' w' H; cbn [extend_loop] in H;
    destruct (Z.ltb_spec (current_gen_offset st + prompt_length st) T) as [C|C];
    try discriminate;
    try (injection H as <- <-; exists []; split; [now rewrite app_nil_r|lia]).
  unfold bind in H.
  destruct (loop_body md vfps progress stt svf st w) as [[st1|e|] w1] eqn:Hb;
    try discriminate.
  destruct (loop_body_completed _ _ _ _ _ _ _ _ _ Hb)
    as (v & g & gen & chunk & _ & _ & Hall & _).
  destruct (IH st1 w1 st' w' H) as (extra & E & _).
  exists (chunk :: extra). split.
  - rewrite E, Hall, <- app_assoc. reflexivity.
  - intros _. discriminate.
Qed.


(** With a stride of at most minus one step, the loop never ends once it is
    entered on such a pair with a decoder that always returns. *)
Lemma extend_loop_negative_stride md vfps progress T stt svf fuel : forall st w v g,
  always_returns lm ->
  stt <= -1 ->
  attributes w = [Video v; g] ->
  current_gen_offset st <= 0 ->
  current_gen_offset st + prompt_length st < T ->
  0 < T ->
  fst (extend_loop md vfps progress T stt svf fuel st w) = OutOfFuel.
Proof.
  induction fuel as [|fuel IH]; intros st w v g Hr Hs Ha Ho Hc HT; cbn [extend_loop];
    destruct (Z.ltb_spec (current_gen_offset st + prompt_length st) T) as [C|C];
    try lia; [reflexivity|].
  unfold bind. rewrite (loop_body_pair _ _ _ _ _ _ _ _ _ Ha).
  destruct (Hr (call_prompt (loop_call md vfps progress st (self w) v g))
              (call_attributes (loop_call md vfps progress st (self w) v g))
              (call_max_gen_len (loop_call md vfps progress st (self w) v g))
              (generation_params (self w))) as [gen ->].
  apply (IH _ _ (advance_window md vfps svf v) g); try assumption;
    cbn [attributes current_gen_offset prompt_length]; try reflexivity; try lia.
  rewrite slice_from_neg by lia. unfold Py.len. rewrite lastn_length.
  assert (Z.of_nat (Nat.min (Z.to_nat (- stt)) (length gen)) <= - stt).
  { pose proof (Nat.le_min_l (Z.to_nat (- stt)) (length gen)) as M.
    apply Nat2Z.inj_le in M. rewrite Z2Nat.id in M by lia. exact M. }
  lia.
Qed.

(** X7.  For [duration > 30], a successful run with a prompt returns the prompt
    followed by the generated chunks. *)
Theorem continuation_keeps_prompt attrs p progress fuel w t w' :
  (30 < duration (self w))%Q ->
  _generate_tokens attrs (Some p) progress fuel w = (Ok t, w') ->
  exists rest, t = p ++ rest.
Proof.
  intros Hd H.
  assert (Hp : prompt_fits (Some p) (self w)).
  { cbn [prompt_fits].
    destruct (Z_le_gt_dec (Py.len p) (max_prompt_len_of (set_max_duration 30 (self w))))
      as [L|L]; [assumption|].
    apply Z.gt_lt in L.
    rewrite (generate_tokens_too_long _ _ _ _ _ L) in H. discriminate. }
  destruct (Qlt_le_dec (extend_stride (self w)) 30) as [Hs|Hs].
  - rewrite (generate_tokens_extension _ _ _ _ _ Hd Hp Hs) in H. unfold bind in H.
    destruct (extend_loop _ _ _ _ _ _ _ _ _) as [[st|e|] w1] eqn:Hl; try discriminate.
    destruct (extend_loop_appends _ _ _ _ _ _ _ _ _ _ _ Hl) as (extra & E & _).
    cbn [initial_state all_tokens] in E.
    unfold torch_cat in H. rewrite E in H. cbn in H. injection H as <- _.
    now exists (concat extra).
  - rewrite (generate_tokens_bad_stride _ _ _ _ _ Hd Hp Hs) in H. discriminate.
Qed.

(** X8.  A stride of minus one step or less passes both stride assertions, and
    then, on a video pair with a decoder that always returns, the loop never
    ends once it is entered: no amount of fuel suffices. *)
Theorem negative_stride_never_returns v g prompt progress w :
  always_returns lm ->
  (30 < duration (self w))%Q ->
  stride_tokens_of (self w) <= -1 ->
  prompt_fits prompt (self w) ->
  plen prompt < total_gen_len_of (self w) ->
  forall fuel,
    fst (_generate_tokens [Video v; g] prompt progress fuel w) = OutOfFuel.
Proof.
  intros Hr Hd Hst Hp Hpl fuel.
  assert (Hs : (extend_stride (self w) < 30)%Q).
  { apply Qnot_le_lt. intros N.
    assert (0 <= stride_tokens_of (self w)); [|lia].
    apply int_nonneg. apply Qmult_le_0_compat; [discriminate|].
    apply Qle_trans with 30%Q; [discriminate|assumption]. }
  rewrite (generate_tokens_extension _ _ _ _ _ Hd Hp Hs). unfold bind.
  rewrite (surjective_pairing (extend_loop _ _ _ _ _ _ _ _ _)).
  rewrite (extend_loop_negative_stride 30 2 progress _ _ _ fuel _ _ v g Hr Hst).
  - reflexivity.
  - reflexivity.
  - destruct prompt; cbn; lia.
  - destruct prompt; cbn [initial_state current_gen_offset prompt_length plen] in *; lia.
  - assert (0 <= plen prompt) by (destruct prompt; [apply len_nonneg|reflexivity]). lia.
Qed.

(** X11.  After any run of [_generate_tokens], [set_generation_params]
    accepts a stride exactly when it is below 30, whatever [max_duration] the
    session was built with. *)
Theorem stride_guard_after_generation attrs prompt progress fuel w
    (us : bool) (tk : Z) (tp t d cc : Q) (ts : bool) (es : Q) :
  fst (set_generation_params us tk tp t d cc ts es
         (snd (_generate_tokens attrs prompt progress fuel w))) = Ok tt
  <-> (es < 30)%Q.
Proof.
  assert (E : max_duration (self (snd (_generate_tokens attrs prompt progress fuel w)))
              = 30%Q).
  { destruct (proj1 (generate_tokens_outcome attrs prompt progress fuel w))
      as [E|[_ E]]; rewrite E; reflexivity. }
  unfold set_generation_params, bind, get_self, set_self, assert, ret, raise.
  rewrite E. destruct (Qltb es 30) eqn:B; cbn.
  - apply Qltb_true in B. split; [intros _; assumption|reflexivity].
  - apply Qltb_false in B. split; [discriminate|].
    intros L. exfalso. exact (Qlt_not_le _ _ L B).
Qed.


End Outcomes.

(** ** Construction *)

(** X1.  [__init__] takes [max_duration] from its argument, else from the
    configuration, and raises when there is neither.  Because it sets the
    parameters with the default stride 29.5, it raises the stride assertion
    for every [max_duration <= 29.5]; above that it yields a session with
    [duration = 15], [extend_stride = 29.5] and the default sampling
    parameters. *)
Theorem init_guard (m cfg : option Q) :
  (m = None -> cfg = None -> __init__ m cfg = Raise MaxDurationMissing) /\
  (forall x, m = Some x \/ (m = None /\ cfg = Some x) ->
     ((x <= 29.5)%Q -> __init__ m cfg = Raise StrideTooLarge) /\
     ((29.5 < x)%Q ->
      __init__ m cfg =
      Ok {| max_duration := x; extend_stride := 29.5; duration := 15;
            generation_params := default_params; fps := None |})).
Proof.
  split.
  - intros -> ->. reflexivity.
  - intros x Hx.
    assert (E : __init__ m cfg = __init__ (Some x) None).
    { destruct Hx as [->|[-> ->]]; reflexivity. }
    rewrite E. unfold __init__, set_generation_params, bind, get_self, set_self,
      assert, ret, raise. cbn [self max_duration].
    split; intros H.
    + apply Qltb_false in H. rewrite H. reflexivity.
    + apply Qltb_true in H. rewrite H. reflexivity.
Qed.

Lemma init_guard_witness :
  __init__ (Some 29.5%Q) None = Raise StrideTooLarge /\
  __init__ None (Some 30%Q) = Ok (session_of 15 29.5).
Proof.
  split.
  - apply (proj2 (init_guard (Some 29.5%Q) None) 29.5%Q (or_introl eq_refl)).
    vm_compute. discriminate.
  - apply (proj2 (init_guard None (Some 30%Q)) 30%Q (or_intror (conj eq_refl eq_refl))).
    reflexivity.
Defined.

Lemma checkpoint_name_idempotent (name : string) :
  checkpoint_name (checkpoint_name name) = checkpoint_name name.
Proof.
  unfold checkpoint_name, _HF_MODEL_CHECKPOINTS_MAP. cbn [lookup].
  destruct (String.eqb name "small") eqn:E1; [reflexivity|].
  destruct (String.eqb name "medium") eqn:E2; [reflexivity|].
  destruct (String.eqb name "large") eqn:E3; [reflexivity|].
  destruct (String.eqb name "melody") eqn:E4; [reflexivity|].
  rewrite E1, E2, E3, E4. reflexivity.
Qed.

Section PretrainedFacts.
Variable cuda_device_count : nat.
Variable get_debug_compression_model : string -> CompressionModel.
Variable get_debug_lm_model : string -> LMModel.
Variable load_lm_model : string -> string -> LMModel + string.
Variable load_compression_model : string -> string -> CompressionModel + string.

(** X2.  [get_pretrained] either passes on a loader's failure or returns an
    object whose session has [max_duration = 30], [duration = 15] and
    [extend_stride = 29.5]: the constructor never fails there.  The name it
    keeps is a fixed point of the checkpoint lookup, it is the looked-up name
    unless the name is [debug], and a device that is given is kept. *)
Theorem get_pretrained_session (name : string) (device : option string) :
  (exists msg,
     get_pretrained cuda_device_count get_debug_compression_model get_debug_lm_model
       load_lm_model load_compression_model name device = LoadError msg) \/
  (exists v,
     get_pretrained cuda_device_count get_debug_compression_model get_debug_lm_model
       load_lm_model load_compression_model name device = Loaded v /\
     vm_session v = session_of 15 29.5 /\
     checkpoint_name (vm_name v) = vm_name v /\
     (name <> "debug"%string -> vm_name v = checkpoint_name name) /\
     (forall d, device = Some d -> vm_device v = d)).
Proof.
  unfold get_pretrained, construct.
  change (__init__ (Some 30%Q) None) with (Ok (session_of 15 29.5)).
  destruct (String.eqb_spec name "debug") as [->|N].
  - right. eexists. split; [reflexivity|]. cbn.
    split; [reflexivity|]. split; [reflexivity|].
    split; [congruence|]. intros d ->. reflexivity.
  - destruct (load_lm_model _ _) as [l|msg]; [|left; now exists msg].
    destruct (load_compression_model _ _) as [cm|msg]; [|left; now exists msg].
    right. eexists. split; [reflexivity|]. cbn.
    split; [reflexivity|]. split; [apply checkpoint_name_idempotent|].
    split; [reflexivity|]. intros d ->. reflexivity.
Qed.

End PretrainedFacts.

(** ** The exceptions of [_generate_tokens] *)

Section Errors.
Context {lm : LMModel}.

Lemma total_gen_len_above (s : session) :
  (30 < duration s)%Q -> 30 * frame_rate <= total_gen_len_of s.
Proof.
  intros Hd. unfold total_gen_len_of. rewrite <- (int_inject (30 * frame_rate)).
  apply int_mono; [discriminate|].
  rewrite inject_Z_mult. apply Qmult_le_compat_r; [|discriminate].
  now apply Qlt_le_weak.
Qed.

Lemma generate_tokens_raises attrs prompt progress fuel w e :
  fst (_generate_tokens attrs prompt progress fuel w) = Raise e ->
  e = PromptTooLong \/ e = StrideTooLarge \/
  e = AttributesNotAPair \/ e = NotATensor \/ exists msg, e = External msg.
Proof.
  intros H.
  assert (prompt_fits prompt (self w) \/
          exists p, prompt = Some p /\
                    max_prompt_len_of (set_max_duration 30 (self w)) < Py.len p)
    as [Hp|(p & -> & Hp)].
  { destruct prompt as [p|]; [|left; exact I]. cbn [prompt_fits].
    destruct (Z_le_gt_dec (Py.len p)
                (max_prompt_len_of (set_max_duration 30 (self w))));
      [left; assumption|right; exists p; split; [reflexivity|lia]]. }
  - destruct (Qlt_le_dec 30 (duration (self w))) as [Hd|Hd].
    + destruct (Qlt_le_dec (extend_stride (self w)) 30) as [Hs|Hs].
      * rewrite (generate_tokens_extension _ _ _ _ _ Hd Hp Hs) in H. unfold bind in H.
        match type of H with
        | context [extend_loop ?a ?b ?c ?d ?x ?f ?g ?h ?i] =>
            destruct (extend_loop_frame a b c d x f g h i) as [_ Herr];
            destruct (extend_loop a b c d x f g h i) as [[st| err |] w1] eqn:Hl
        end; cbn [fst snd] in *.
        -- exfalso.
           destruct (extend_loop_appends _ _ _ _ _ _ _ _ _ _ _ Hl) as (extra & E & Hne).
           unfold torch_cat in H. rewrite E in H.
           pose proof (total_gen_len_above _ Hd) as HT.
           destruct prompt as [p|];
             cbn [initial_state all_tokens current_gen_offset prompt_length app] in H, Hne.
           ++ discriminate.
           ++ destruct extra; [|discriminate].
              apply Hne; [unfold frame_rate in *; lia|reflexivity].
        -- injection H as <-. specialize (Herr _ eq_refl).
           destruct err; cbn in Herr; try contradiction; auto 10.
           do 4 right. now exists msg.
        -- discriminate.
      * rewrite (generate_tokens_bad_stride _ _ _ _ _ Hd Hp Hs) in H.
        injection H as <-. auto.
    + rewrite (generate_tokens_single_shot _ _ _ _ _ Hd Hp), lm_call_run in H.
      cbn in H. destruct (lm_generate _ _ _ _) as [t|msg]; [discriminate|].
      injection H as <-. do 4 right. now exists msg.
  - rewrite (generate_tokens_too_long _ _ _ _ _ Hp) in H. injection H as <-. auto.
Qed.


End Errors.

(** ** The attribute builder *)

Lemma described_null (ds : list (option string)) :
  Forall2 described
    (map Cond
       (map (fun a => {| text_description := text_description a;
                         wav_self_wav := Some null_wav |})
          (map (fun d => {| text_description := d; wav_self_wav := None |}) ds)))
    ds.
Proof.
  induction ds; cbn; constructor; [|assumption].
  eexists. split; [reflexivity|]. split; [reflexivity|discriminate].
Qed.

Lemma described_melody : forall (ds : list (option string)) (ms : list (option waveform)),
  length ms = length ds ->
  Forall2 described
    (map Cond
       (map (fun am : ConditioningAttributes * option waveform =>
               {| text_description := text_description (fst am);
                  wav_self_wav :=
                    Some (match snd am with
                          | None => null_wav
                          | Some m => melody_wav m
                          end) |})
          (combine (map (fun d => {| text_description := d; wav_self_wav := None |}) ds)
             ms)))
    ds.
Proof.
  induction ds as [|d ds IH]; intros [|m ms] Hl; try discriminate; cbn; constructor.
  - eexists. split; [reflexivity|]. split; [reflexivity|discriminate].
  - apply IH. now injection Hl.
Qed.

Section Builder.
Context {lm : LMModel} {codec : CompressionModel}.
Variable convert_audio : waveform -> Z -> Z -> Z -> waveform.
Variable has_self_wav : bool.
Variable unbind : waveform -> list waveform.

(** X13.  When [_prepare_tokens_and_attributes] succeeds it returns one record
    per description, in order, each with its ['self_wav'] slot filled, and
    the encoded prompt exactly when a prompt was given. *)
Theorem prepare_records descriptions prompt melody w attrs pt :
  fst (_prepare_tokens_and_attributes has_self_wav descriptions prompt melody w)
  = Ok (attrs, pt) ->
  Forall2 described attrs descriptions /\
  pt = option_map (fun p => fst (encode p)) prompt.
Proof.
  unfold _prepare_tokens_and_attributes, bind, assert, ret, raise.
  destruct melody as [ms|].
  - destruct has_self_wav; cbn; [|discriminate].
    destruct (Nat.eqb_spec (length ms) (length descriptions)) as [El|]; cbn;
      [|discriminate].
    destruct prompt as [p|]; cbn.
    + destruct (length descriptions =? wlen p)%nat; cbn; [|discriminate].
      destruct (encode p) as [t [sc|]]; cbn; [discriminate|].
      intros [= <- <-]. split; [now apply described_melody|reflexivity].
    + intros [= <- <-]. split; [now apply described_melody|reflexivity].
  - cbn. destruct prompt as [p|]; cbn.
    + destruct (length descriptions =? wlen p)%nat; cbn; [|discriminate].
      destruct (encode p) as [t [sc|]]; cbn; [discriminate|].
      intros [= <- <-]. split; [apply described_null|reflexivity].
    + intros [= <- <-]. split; [apply described_null|reflexivity].
Qed.

(** X14.  [_prepare_tokens_and_attributes] never changes the world, and it
    succeeds exactly when the melodies, if given, are supported by the decoder
    and as many as the descriptions, and the prompt, if given, has as many
    entries as there are descriptions and encodes without a scale. *)
Theorem prepare_succeeds_iff descriptions prompt melody w :
  snd (_prepare_tokens_and_attributes has_self_wav descriptions prompt melody w) = w /\
  ((exists r, fst (_prepare_tokens_and_attributes has_self_wav descriptions prompt melody w)
              = Ok r) <->
   (forall ms, melody = Some ms ->
               has_self_wav = true /\ length ms = length descriptions) /\
   (forall p, prompt = Some p ->
              length descriptions = wlen p /\ snd (encode p) = None)).
Proof.
  unfold _prepare_tokens_and_attributes, bind, assert, ret, raise.
  destruct melody as [ms|]; destruct prompt as [p|]; cbn;
    repeat match goal with
      | |- context [(?a =? ?b)%nat] => destruct (Nat.eqb_spec a b); cbn
      | |- context [if has_self_wav then _ else _] => destruct has_self_wav; cbn
      | |- context [match encode ?q with _ => _ end] =>
          destruct (encode q) as [? [?|]] eqn:Henc; cbn
      end;
    (split; [reflexivity|]);
    first
      [ (* a failure *)
        split;
        [ intros [r H]; discriminate
        | intros [HA HB]; exfalso;
          try (destruct (HA _ eq_refl) as [? ?]);
          try (destruct (HB _ eq_refl) as [? HS]; try rewrite Henc in HS);
          first [contradiction | discriminate | congruence] ]
      | (* a success *)
        split;
        [ intros _; split; intros ? E; inversion E; subst; cbn; split;
          first [assumption | reflexivity | rewrite Henc; reflexivity]
        | intros _; eexists; reflexivity ] ].
Qed.

End Builder.

(** ** The entry points *)

Section EntryPoints.
Context {lm : LMModel} {codec : CompressionModel}.
Variable convert_audio : waveform -> Z -> Z -> Z -> waveform.
Variable has_self_wav : bool.
Variable unbind : waveform -> list waveform.

Lemma prepare_prompt_cases (ds : list (option string)) (p : waveform) (w : world) :
  (length ds <> wlen p /\
   _prepare_tokens_and_attributes has_self_wav ds (Some p) None w
   = (Raise DescriptionsMismatch, w)) \/
  (length ds = wlen p /\
   (_prepare_tokens_and_attributes has_self_wav ds (Some p) None w
    = (Raise ScaleNotNone, w) \/
    exists cs,
      _prepare_tokens_and_attributes has_self_wav ds (Some p) None w
      = (Ok (map Cond cs, Some (fst (encode p))), w))).
Proof.
  unfold _prepare_tokens_and_attributes, bind, ret, assert, raise. cbn.
  destruct (Nat.eqb_spec (length ds) (wlen p)) as [E|N]; cbn.
  - right. split; [assumption|].
    destruct (encode p) as [t [sc|]]; cbn; [left; reflexivity|].
    right. eexists. reflexivity.
  - left. now split.
Qed.

Lemma prepare_no_prompt_cases (ds : list (option string))
    (melody : option (list (option waveform))) (w : world) :
  (exists e, _prepare_tokens_and_attributes has_self_wav ds None melody w
             = (Raise e, w)) \/
  (exists cs, _prepare_tokens_and_attributes has_self_wav ds None melody w
              = (Ok (map Cond cs, None), w)).
Proof.
  unfold _prepare_tokens_and_attributes, bind, ret, assert, raise.
  destruct melody as [ms|]; cbn.
  - destruct has_self_wav; cbn; [|left; eexists; reflexivity].
    destruct (length ms =? length ds)%nat; cbn; [|left; eexists; reflexivity].
    right. eexists. reflexivity.
  - right. eexists. reflexivity.
Qed.

(** X15.  [generate_continuation] raises the dimension error exactly for a
    prompt of neither two nor three axes, leaving the world untouched; and
    with [descriptions=None] it never raises the description-count
    assertion. *)
Theorem continuation_validation prompt rate descriptions progress fuel w :
  (fst (generate_continuation convert_audio has_self_wav prompt rate descriptions
          progress fuel w) = Raise PromptDimension
   <-> wdim prompt <> 2%nat /\ wdim prompt <> 3%nat) /\
  (fst (generate_continuation convert_audio has_self_wav prompt rate descriptions
          progress fuel w) = Raise PromptDimension ->
   snd (generate_continuation convert_audio has_self_wav prompt rate descriptions
          progress fuel w) = w) /\
  (descriptions = None ->
   fst (generate_continuation convert_audio has_self_wav prompt rate descriptions
          progress fuel w) <> Raise DescriptionsMismatch).
Proof.
  unfold generate_continuation, bind, assert, ret, raise.
  set (prompt1 := if (wdim prompt =? 2)%nat
                  then {| wdim := 3; wlen := 1; wdata := wdata prompt |}
                  else prompt).
  set (prompt2 := convert_audio prompt1 rate sample_rate audio_channels).
  set (ds := match descriptions with
             | Some d => d
             | None => repeat None (wlen prompt2)
             end).
  assert (Hdim : (wdim prompt1 =? 3)%nat = false <->
                 wdim prompt <> 2%nat /\ wdim prompt <> 3%nat).
  { subst prompt1. destruct (Nat.eqb_spec (wdim prompt) 2) as [E|N]; cbn.
    - split; [discriminate|]. intros [H _]. contradiction.
    - destruct (Nat.eqb_spec (wdim prompt) 3) as [E3|N3].
      + split; [discriminate|]. intros [_ H]. contradiction.
      + split; [now split|reflexivity]. }
  destruct (wdim prompt1 =? 3)%nat eqn:D.
  - assert (Hnd : ~ (wdim prompt <> 2%nat /\ wdim prompt <> 3%nat)).
    { intros H. apply Hdim in H. discriminate. }
    destruct (prepare_prompt_cases ds prompt2 w) as [[N ->]|[E [->|[cs ->]]]];
      cbn [fst snd].
    + split; [split; [discriminate|intros H; contradiction]|].
      split; [discriminate|].
      intros ->. exfalso. apply N. subst ds. apply repeat_length.
    + split; [split; [discriminate|intros H; contradiction]|].
      split; discriminate.
    + pose proof (generate_tokens_raises (map Cond cs) (Some (fst (encode prompt2)))
                    progress fuel w) as Herr.
      destruct (_generate_tokens (map Cond cs) (Some (fst (encode prompt2)))
                  progress fuel w) as [[t|e1|] w1]; cbn [fst snd] in *.
      * unfold generate_audio, ret.
        split; [split; [discriminate|intros H; contradiction]|].
        split; discriminate.
      * assert (He : e1 <> PromptDimension /\ e1 <> DescriptionsMismatch).
        { destruct (Herr e1 eq_refl) as [H|[H|[H|[H|[msg H]]]]]; subst e1;
            split; discriminate. }
        destruct He as [H1 H2].
        split; [split; [intros [= H]; contradiction|intros H; contradiction]|].
        split; [intros [= H]; contradiction|].
        intros _ [= H]; contradiction.
      * split; [split; [discriminate|intros H; contradiction]|].
        split; discriminate.
  - cbn [fst snd]. split; [|split].
    + split; [intros _; now apply Hdim|reflexivity].
    + reflexivity.
    + discriminate.
Qed.


(** X17.  [generate_with_chroma] rejects, without touching the world, a list
    with an entry that has not two axes, a tensor of neither two nor three
    axes, any melody when the decoder has no ['self_wav'] conditioner, and a
    melody count different from the description count. *)
Theorem chroma_validation descriptions melody rate progress fuel w :
  (forall l x, melody = MelodyList l -> In (Some x) l -> wdim x <> 2%nat ->
     generate_with_chroma convert_audio has_self_wav unbind descriptions melody rate
       progress fuel w = (inr MelodyDims, w)) /\
  (forall t, melody = MelodyTensor t -> wdim t <> 2%nat -> wdim t <> 3%nat ->
     generate_with_chroma convert_audio has_self_wav unbind descriptions melody rate
       progress fuel w = (inr MelodyShape, w)) /\
  (forall ms, melody_list unbind melody = inl ms ->
     (has_self_wav = false ->
      generate_with_chroma convert_audio has_self_wav unbind descriptions melody rate
        progress fuel w = (inl (Raise MelodyUnsupported), w)) /\
     (has_self_wav = true -> length ms <> length descriptions ->
      generate_with_chroma convert_audio has_self_wav unbind descriptions melody rate
        progress fuel w = (inl (Raise MelodyCountMismatch), w))).
Proof.
  split; [|split].
  - intros l x -> Hin Hx. unfold generate_with_chroma, melody_list.
    destruct (forallb _ l) eqn:F; [|reflexivity].
    exfalso. rewrite forallb_forall in F. specialize (F _ Hin). cbn in F.
    apply Nat.eqb_eq in F. contradiction.
  - intros t -> H2 H3. unfold generate_with_chroma, melody_list.
    destruct (Nat.eqb_spec (wdim t) 2) as [|_]; [contradiction|].
    destruct (Nat.eqb_spec (wdim t) 3) as [|_]; [contradiction|reflexivity].
  - intros ms Hm. unfold generate_with_chroma. rewrite Hm.
    unfold _prepare_tokens_and_attributes, bind, assert, ret, raise.
    split.
    + intros ->. reflexivity.
    + intros -> Hl. cbn. rewrite length_map.
      destruct (Nat.eqb_spec (length ms) (length descriptions)); [contradiction|].
      reflexivity.
Qed.

(** X18.  For [duration > 30], [generate_with_chroma] never succeeds and never
    calls the decoder. *)
Theorem chroma_beyond_max_duration descriptions melody rate progress f w :
  (30 < duration (self w))%Q ->
  calls (snd (generate_with_chroma convert_audio has_self_wav unbind descriptions
                melody rate progress (S f) w)) = calls w /\
  forall out,
    fst (generate_with_chroma convert_audio has_self_wav unbind descriptions
           melody rate progress (S f) w) <> inl (Ok out).
Proof.
  intros Hd. unfold generate_with_chroma.
  destruct (melody_list unbind melody) as [ms|e]; [|split; [reflexivity|discriminate]].
  cbn [fst snd]. unfold bind.
  match goal with
  | |- context [_prepare_tokens_and_attributes _ ?d None ?m w] =>
      destruct (prepare_no_prompt_cases d m w) as [[e ->]|[cs ->]]
  end.
  - cbn. split; [reflexivity|]. intros out. discriminate.
  - cbn [fst snd].
    destruct (generate_tokens_records cs None progress f w Hd)
      as (Hcalls & _ & _ & Hraise).
    destruct (Hraise eq_refl) as [e He].
    destruct (_generate_tokens (map Cond cs) None progress (S f) w) as [r w1].
    cbn [fst snd] in *. subst r. split; [assumption|]. intros out. discriminate.
Qed.

End EntryPoints.

(** ** A stride of zero *)

Section ZeroStride.
Context {lm : LMModel}.

Lemma first_chunk_full (s : session) :
  (30 < duration s)%Q ->
  Py.int (chunk_duration_of 30 s 0 * inject_Z frame_rate) = 30 * frame_rate.
Proof.
  intros Hd. apply int_of_integer. unfold chunk_duration_of.
  rewrite Q.min_r.
  - now rewrite inject_Z_mult.
  - apply Qlt_le_weak.
    assert (E : (duration s - inject_Z 0 / inject_Z frame_rate == duration s)%Q)
      by (unfold frame_rate; field).
    rewrite E. exact Hd.
Qed.

Lemma extend_loop_zero_stride progress T svf fuel : forall st w v g,
  meets_total_contract lm ->
  (30 < duration (self w))%Q ->
  attributes w = [Video v; g] ->
  current_gen_offset st = 0 ->
  prompt_length st = plen (prompt_tokens st) ->
  prompt_length st <= 30 * frame_rate ->
  30 * frame_rate < T ->
  fst (extend_loop 30 2 progress T 0 svf fuel st w) = OutOfFuel.
Proof.
  induction fuel as [|fuel IH]; intros st w v g Hc Hd Ha Ho Hp Hle HT;
    cbn [extend_loop];
    destruct (Z.ltb_spec (current_gen_offset st + prompt_length st) T) as [C|C];
    try lia; [reflexivity|].
  unfold bind. rewrite (loop_body_pair _ _ _ _ _ _ _ _ _ Ha).
  cbn [loop_call call_prompt call_attributes call_max_gen_len].
  rewrite Ho, (first_chunk_full _ Hd).
  destruct (Hc (prompt_tokens st)
              [Video (Py.slice_to (Py.int (chunk_duration_of 30 (self w) 0 * inject_Z 2)) v); g]
              (30 * frame_rate) (generation_params (self w)))
    as (gen & -> & Hlen); [lia|].
  assert (Hn : Py.len (Py.slice_from 0 gen) = 30 * frame_rate).
  { rewrite slice_from_len by lia. unfold frame_rate in *. lia. }
  apply (IH _ _ (advance_window 30 2 svf v) g); try assumption;
    cbn [self attributes current_gen_offset prompt_length prompt_tokens plen];
    try reflexivity; lia.
Qed.

(** X9.  With a stride of zero steps ([0 <= extend_stride < 1/frame_rate]), a
    decoder that returns [max_gen_len] steps in all and more than 1500 steps
    to generate, the loop never ends either: the offset stays at 0 and the
    prompt at 1500 steps. *)
Theorem zero_stride_never_returns v g prompt progress w :
  meets_total_contract lm ->
  stride_tokens_of (self w) = 0 ->
  (extend_stride (self w) < 30)%Q ->
  30 * frame_rate < total_gen_len_of (self w) ->
  prompt_fits prompt (self w) ->
  forall fuel,
    fst (_generate_tokens [Video v; g] prompt progress fuel w) = OutOfFuel.
Proof.
  intros Hc Hst Hs HT Hp fuel.
  assert (Hd : (30 < duration (self w))%Q).
  { apply Qnot_le_lt. intros N.
    assert (total_gen_len_of (self w) <= 30 * frame_rate); [|lia].
    unfold total_gen_len_of. apply int_le_of_le. rewrite inject_Z_mult.
    apply Qmult_le_compat_r; [assumption|discriminate]. }
  rewrite (generate_tokens_extension _ _ _ _ _ Hd Hp Hs). unfold bind.
  rewrite (surjective_pairing (extend_loop _ _ _ _ _ _ _ _ _)).
  rewrite Hst.
  rewrite (extend_loop_zero_stride progress _ _ fuel _ _ v g Hc).
  - reflexivity.
  - exact Hd.
  - reflexivity.
  - destruct prompt; reflexivity.
  - destruct prompt; reflexivity.
  - destruct prompt as [p|]; cbn [initial_state prompt_length prompt_fits] in *.
    + etransitivity; [exact Hp|].
      unfold max_prompt_len_of. cbn [duration max_duration set_max_duration].
      apply int_le_of_le. rewrite inject_Z_mult.
      apply Qmult_le_compat_r; [apply Q.le_min_r|discriminate].
    + unfold frame_rate; lia.
  - exact HT.
Qed.

End ZeroStride.

(** ** The further properties on concrete inputs *)

Lemma plus_decoder_always_returns : always_returns plus_decoder.
Proof. intros p a n g. eexists. reflexivity. Qed.



Lemma window_never_underruns_witness :
  exists v',
    attributes (snd (@_generate_tokens plus_decoder (video_pair 120) None false 5
                       (world_of (session_of 60 29.5))))
    = [Video v'; Video [5]] /\ (60 <= length v')%nat.
Proof.
  apply (@window_never_underruns plus_decoder (repeat 1 120%nat) (Video [5]) None
           false 5 (world_of (session_of 60 29.5))).
  - reflexivity.
  - vm_compute. discriminate.
  - rewrite repeat_length. lia.
Defined.

Lemma continuation_keeps_prompt_witness :
  exists t w' rest,
    @_generate_tokens plus_decoder (video_pair 120) (Some [1; 2; 3]) false 5
      (world_of (session_of 60 29.5)) = (Ok t, w') /\
    t = [1; 2; 3] ++ rest.
Proof.
  pose (r := @_generate_tokens plus_decoder (video_pair 120) (Some [1; 2; 3]) false 5
               (world_of (session_of 60 29.5))).
  assert (E : r = (Ok (match fst r with Ok t => t | _ => [] end), snd r))
    by (vm_compute; reflexivity).
  destruct (@continuation_keeps_prompt plus_decoder (video_pair 120) [1; 2; 3] false 5
              (world_of (session_of 60 29.5)) _ _ eq_refl E)
    as [rest Hrest].
  do 3 eexists. split; [exact E|exact Hrest].
Defined.

Lemma negative_stride_never_returns_witness :
  fst (@_generate_tokens plus_decoder (video_pair 120) None false 7
         (world_of (session_of 60 (-1)))) = OutOfFuel.
Proof.
  apply (@negative_stride_never_returns plus_decoder (repeat 1 120%nat) (Video [5])
           None false (world_of (session_of 60 (-1))) plus_decoder_always_returns).
  - reflexivity.
  - vm_compute. discriminate.
  - exact I.
  - vm_compute. reflexivity.
Defined.

Lemma zero_stride_never_returns_witness :
  fst (@_generate_tokens total_decoder (video_pair 120) None false 7
         (world_of (session_of 60 (1 # 128)))) = OutOfFuel.
Proof.
  apply (@zero_stride_never_returns total_decoder (repeat 1 120%nat) (Video [5])
           None false (world_of (session_of 60 (1 # 128)))
           total_decoder_meets_total_contract).
  - vm_compute. reflexivity.
  - reflexivity.
  - vm_compute. reflexivity.
  - exact I.
Defined.


Lemma prepare_records_witness :
  exists attrs,
    fst (@_prepare_tokens_and_attributes plain_codec true
           [None; Some "rain"%string] None (Some [None; Some (wave_of 4)])
           (world_of (session_of 15 29.5))) = Ok (attrs, None) /\
    Forall2 described attrs [None; Some "rain"%string].
Proof.
  eexists. split; [reflexivity|].
  apply (@prepare_records plain_codec true [None; Some "rain"%string] None
           (Some [None; Some (wave_of 4)]) (world_of (session_of 15 29.5)) _ None).
  reflexivity.
Defined.


Lemma chroma_validation_witness :
  @generate_with_chroma plus_decoder plain_codec keep_audio true (fun t => [t])
    [None; None] (MelodyList [None; None; None]) 32000 false 5
    (world_of (session_of 15 29.5))
  = (inl (Raise MelodyCountMismatch), world_of (session_of 15 29.5)).
Proof.
  apply (proj2 (proj2 (@chroma_validation plus_decoder plain_codec keep_audio true
                         (fun t => [t]) [None; None] (MelodyList [None; None; None])
                         32000 false 5 (world_of (session_of 15 29.5))))
           [None; None; None] eq_refl).
  - reflexivity.
  - cbn. lia.
Defined.

Lemma chroma_beyond_max_duration_witness :
  calls (snd (@generate_with_chroma plus_decoder plain_codec keep_audio true
                (fun t => [t]) [None; None] (MelodyList [None; None]) 32000 false 1
                (world_of (session_of 60 29.5)))) = [].
Proof.
  apply (@chroma_beyond_max_duration plus_decoder plain_codec keep_audio true
           (fun t => [t]) [None; None] (MelodyList [None; None]) 32000 false 0
           (world_of (session_of 60 29.5))).
  reflexivity.
Defined.
